(** * code_reviewer.py: a shallow embedding and its specification

    The program reads a diff (from a file or from [git diff]), sends it to a
    remote review service and prints the answer with terminal colours.

    Python [str] values are modelled as [string], read as the UTF-8 bytes of
    the text.  Everything the program does to the outside world (logging,
    printing, reading a file, running a process, calling the service) is
    recorded as an [event] in a trace; the outside world itself is a record of
    oracles ([World]).  Exceptions and [sys.exit] are the two abrupt outcomes of
    a computation ([res]). *)

From Stdlib Require Import String Ascii List ZArith Bool Lia.
Import ListNotations.

Open Scope string_scope.

(** ** Python string primitives *)

Module PyStr.

Definition chr (n : nat) : string := String (ascii_of_nat n) "".

Fixpoint of_codes (l : list nat) : string :=
  match l with
  | [] => ""
  | n :: l' => String (ascii_of_nat n) (of_codes l')
  end.

(** ['\n'] and ['\033']. *)
Definition nl : string := chr 10.
Definition esc : string := chr 27.

(** [s * n] *)
Fixpoint repeat (s : string) (n : nat) : string :=
  match n with
  | O => ""
  | S n' => s ++ repeat s n'
  end.

(** An f-string (or a [+] chain): its literal pieces and the values of its
    replacement fields, concatenated left to right. *)
Fixpoint fstr (parts : list string) : string :=
  match parts with
  | [] => ""
  | p :: ps => p ++ fstr ps
  end.

(** [line.startswith(pre)] *)
Definition startswith (line pre : string) : bool := String.prefix pre line.

(** [s.split('\n')]: never returns the empty list; the pieces hold no
    newline; a trailing newline gives a last, empty piece. *)
Fixpoint split_nl (s : string) : list string :=
  match s with
  | EmptyString => [""]
  | String c s' =>
      if Ascii.eqb c (ascii_of_nat 10) then "" :: split_nl s'
      else match split_nl s' with
           | l :: ls => String c l :: ls
           | [] => [String c ""]
           end
  end.

(** ['\n'.join(ls)] *)
Fixpoint join_nl (ls : list string) : string :=
  match ls with
  | [] => ""
  | [l] => l
  | l :: ls' => l ++ nl ++ join_nl ls'
  end.

Fixpoint drop (n : nat) (s : string) : string :=
  match n, s with
  | O, _ => s
  | S n', String _ s' => drop n' s'
  | S _, EmptyString => ""
  end.

Fixpoint rev_acc (s acc : string) : string :=
  match s with
  | EmptyString => acc
  | String c s' => rev_acc s' (String c acc)
  end.

Definition rev (s : string) : string := rev_acc s "".

(** The characters [str.isspace] accepts, as UTF-8 byte sequences:
    U+0009..U+000D, U+001C..U+0020, U+0085, U+00A0, U+1680,
    U+2000..U+200A, U+2028, U+2029, U+202F, U+205F, U+3000. *)
Definition whitespace : list string :=
  map chr [9; 10; 11; 12; 13; 28; 29; 30; 31; 32]
  ++ map of_codes
       [ [194; 133]; [194; 160]; [225; 154; 128];
         [226; 128; 128]; [226; 128; 129]; [226; 128; 130]; [226; 128; 131];
         [226; 128; 132]; [226; 128; 133]; [226; 128; 134]; [226; 128; 135];
         [226; 128; 136]; [226; 128; 137]; [226; 128; 138];
         [226; 128; 168]; [226; 128; 169]; [226; 128; 175];
         [226; 129; 159]; [227; 128; 128] ].

(** The first entry of [ws] that [s] starts with. *)
Definition leading (ws : list string) (s : string) : option string :=
  find (fun w => String.prefix w s) ws.

(** Strip leading entries of [ws]; [fuel] bounds the number of rounds and
    [String.length s] is always enough. *)
Fixpoint lstrip_with (ws : list string) (fuel : nat) (s : string) : string :=
  match fuel with
  | O => s
  | S fuel' =>
      match leading ws s with
      | Some w => lstrip_with ws fuel' (drop (String.length w) s)
      | None => s
      end
  end.

Definition lstrip (s : string) : string :=
  lstrip_with whitespace (String.length s) s.

Definition rstrip (s : string) : string :=
  rev (lstrip_with (map rev whitespace) (String.length s) (rev s)).

(** [s.strip()] *)
Definition strip (s : string) : string := rstrip (lstrip s).

(** Truth value of a [str]: false exactly for the empty string. *)
Definition truthy (s : string) : bool := negb (s =? "").

(** Truth value of a value that is [None] or a [str]. *)
Definition truthy_opt (v : option string) : bool :=
  match v with
  | None => false
  | Some s => truthy s
  end.

(** [a or b] on such values. *)
Definition py_or (a b : option string) : option string :=
  if truthy_opt a then a else b.

(** How an f-string shows such a value. *)
Definition show (v : option string) : string :=
  match v with
  | None => "None"
  | Some s => s
  end.

End PyStr.

Import PyStr.

(** ** Exceptions *)

(** The exception classes the program's operations can raise, with Python's
    (and the [anthropic] package's) subclass relation.  Asynchronous
    [BaseException]s (a keyboard interrupt) are outside the model;
    [SystemExit] is the separate outcome [Exit] below. *)
Inductive exn_class : Type :=
| Exception
| ValueError
| UnicodeDecodeError
| LookupError
| IndexError
| AttributeError
| OSError
| FileNotFoundError
| PermissionError
| IsADirectoryError
| SubprocessError
| CalledProcessError
| APIError
| APIConnectionError
| APITimeoutError
| APIStatusError.

Definition exn_class_eqb (a b : exn_class) : bool :=
  match a, b with
  | Exception, Exception | ValueError, ValueError
  | UnicodeDecodeError, UnicodeDecodeError | LookupError, LookupError
  | IndexError, IndexError | AttributeError, AttributeError
  | OSError, OSError | FileNotFoundError, FileNotFoundError
  | PermissionError, PermissionError | IsADirectoryError, IsADirectoryError
  | SubprocessError, SubprocessError | CalledProcessError, CalledProcessError
  | APIError, APIError | APIConnectionError, APIConnectionError
  | APITimeoutError, APITimeoutError | APIStatusError, APIStatusError => true
  | _, _ => false
  end.

(** The direct base class. *)
Definition base (c : exn_class) : option exn_class :=
  match c with
  | Exception => None
  | ValueError => Some Exception
  | UnicodeDecodeError => Some ValueError
  | LookupError => Some Exception
  | IndexError => Some LookupError
  | AttributeError => Some Exception
  | OSError => Some Exception
  | FileNotFoundError => Some OSError
  | PermissionError => Some OSError
  | IsADirectoryError => Some OSError
  | SubprocessError => Some Exception
  | CalledProcessError => Some SubprocessError
  | APIError => Some Exception
  | APIConnectionError => Some APIError
  | APITimeoutError => Some APIConnectionError
  | APIStatusError => Some APIError
  end.

Fixpoint subclass_fuel (fuel : nat) (c d : exn_class) : bool :=
  exn_class_eqb c d ||
  match fuel with
  | O => false
  | S fuel' =>
      match base c with
      | Some b => subclass_fuel fuel' b d
      | None => false
      end
  end.

(** [issubclass(c, d)]; no chain of bases is longer than four. *)
Definition issubclass (c d : exn_class) : bool := subclass_fuel 4 c d.

(** [c.__name__] *)
Definition class_name (c : exn_class) : string :=
  match c with
  | Exception => "Exception"
  | ValueError => "ValueError"
  | UnicodeDecodeError => "UnicodeDecodeError"
  | LookupError => "LookupError"
  | IndexError => "IndexError"
  | AttributeError => "AttributeError"
  | OSError => "OSError"
  | FileNotFoundError => "FileNotFoundError"
  | PermissionError => "PermissionError"
  | IsADirectoryError => "IsADirectoryError"
  | SubprocessError => "SubprocessError"
  | CalledProcessError => "CalledProcessError"
  | APIError => "APIError"
  | APIConnectionError => "APIConnectionError"
  | APITimeoutError => "APITimeoutError"
  | APIStatusError => "APIStatusError"
  end.

(** An exception object: its class, [str(e)], and the [stderr] attribute a
    [CalledProcessError] carries. *)
Record exn : Type := mkExn {
  exn_cls : exn_class;
  exn_str : string;
  exn_stderr : option string
}.

Definition isinstance (e : exn) (c : exn_class) : bool :=
  issubclass (exn_cls e) c.

(** ** Effects: a trace of events and an abrupt-outcome monad *)

(** The request [client.messages.create] receives. *)
Record Request : Type := mkRequest {
  req_model : string;
  req_max_tokens : Z;
  req_messages : list (string * string);  (* role, content *)
  req_system : string
}.

(** A content block of the service's answer: a text block has a [text]
    attribute, any other kind of block has none. *)
Inductive ContentBlock : Type :=
| TextBlock (text : string)
| OtherBlock.

Record Message : Type := mkMessage { content : list ContentBlock }.

(** What [subprocess.run(cmd, capture_output=True, text=True)] collects. *)
Record CompletedProcess : Type := mkCompleted {
  returncode : Z;
  stdout : string;
  stderr : string
}.

Inductive event : Type :=
| LogInfo (msg : string)
| LogError (msg : string)
| Print (line : string)
| ReadFile (path : string)
| RunProcess (cmd : list string)
| CallService (req : Request).

(** The outside world: each oracle answers with a value or with the
    exception the operation raises. *)
Record World : Type := mkWorld {
  getenv : string -> option string;
  open_read : string -> exn + string;
  run_process : list string -> exn + CompletedProcess;
  messages_create : Request -> exn + Message
}.

(** How a computation ends: normally, by an exception travelling upwards, or
    by [sys.exit(code)]. *)
Inductive res (A : Type) : Type :=
| Ret (a : A)
| Raise (e : exn)
| Exit (code : Z).

Arguments Ret {A} a.
Arguments Raise {A} e.
Arguments Exit {A} code.

Definition M (A : Type) : Type := (list event * res A)%type.

Definition ret {A} (a : A) : M A := ([], Ret a).

Definition bind {A B} (m : M A) (k : A -> M B) : M B :=
  match m with
  | (t, Ret a) => let (t', r) := k a in ((t ++ t')%list, r)
  | (t, Raise e) => (t, Raise e)
  | (t, Exit c) => (t, Exit c)
  end.

Declare Scope py_scope.
Delimit Scope py_scope with py.
Notation "x <- m ;; k" := (bind m (fun x => k))
  (at level 61, m at next level, right associativity) : py_scope.
Notation "m ;; k" := (bind m (fun _ => k))
  (at level 61, right associativity) : py_scope.
Open Scope py_scope.

Definition emit (e : event) : M unit := ([e], Ret tt).
Definition raise {A} (e : exn) : M A := ([], Raise e).
Definition sys_exit {A} (code : Z) : M A := ([], Exit code).

Definition logger_info (msg : string) : M unit := emit (LogInfo msg).
Definition logger_error (msg : string) : M unit := emit (LogError msg).

(** [print(line)].  Writing to standard output is taken to succeed: a
    stream that raises on a write is outside the model. *)
Definition print (line : string) : M unit := emit (Print line).

(** Lift an oracle's answer. *)
Definition lift {A} (r : exn + A) : M A :=
  match r with
  | inl e => raise e
  | inr a => ret a
  end.

(** The first [except C as e: ...] clause whose class [e] is an instance of. *)
Fixpoint select_handler {A} (hs : list (exn_class * (exn -> M A))) (e : exn)
  : option (exn -> M A) :=
  match hs with
  | [] => None
  | (c, h) :: hs' => if isinstance e c then Some h else select_handler hs' e
  end.

(** [try: body  except C1 as e: h1  except C2 as e: h2 ...].  A [sys.exit]
    inside the body is not an [Exception] and passes through. *)
Definition try_except {A} (body : M A) (hs : list (exn_class * (exn -> M A)))
  : M A :=
  match body with
  | (t, Raise e) =>
      match select_handler hs e with
      | Some h => let (t', r) := h e in ((t ++ t')%list, r)
      | None => (t, Raise e)
      end
  | _ => body
  end.

(** [for x in xs: body x] *)
Fixpoint for_each {A} (xs : list A) (body : A -> M unit) : M unit :=
  match xs with
  | [] => ret tt
  | x :: xs' => body x ;; for_each xs' body
  end.

(** Observations on a trace. *)
Definition is_service_call (e : event) : bool :=
  match e with CallService _ => true | _ => false end.

Definition is_process_call (e : event) : bool :=
  match e with RunProcess _ => true | _ => false end.

Definition is_print (e : event) : bool :=
  match e with Print _ => true | _ => false end.

Definition invokes_service (t : list event) : bool := existsb is_service_call t.
Definition invokes_process (t : list event) : bool := existsb is_process_call t.

(** What was written to standard output, one entry per [print] call. *)
Fixpoint printed (t : list event) : list string :=
  match t with
  | [] => []
  | Print l :: t' => l :: printed t'
  | _ :: t' => printed t'
  end.

(** The [str] a value known to be one holds. *)
Definition the (v : option string) : string :=
  match v with
  | Some s => s
  | None => ""
  end.

(** ** Library operations, as the program calls them *)

(** [with open(path, 'r') as f: f.read()] *)
Definition open_and_read (w : World) (path : string) : M string :=
  emit (ReadFile path) ;; lift (open_read w path).

(** [subprocess.run(cmd, capture_output=True, text=True, check=True)]: with
    [check] a non-zero return code becomes a [CalledProcessError] carrying the
    captured [stderr].  (The message text of that exception is never read by
    the program.) *)
Definition subprocess_run (w : World) (cmd : list string) : M CompletedProcess :=
  emit (RunProcess cmd) ;;
  result <- lift (run_process w cmd) ;;
  if (returncode result =? 0)%Z then ret result
  else raise (mkExn CalledProcessError
                "Command returned non-zero exit status."
                (Some (stderr result))).

(** [client.messages.create(...)] *)
Definition client_messages_create (w : World) (req : Request) : M Message :=
  emit (CallService req) ;; lift (messages_create w req).

(** [blocks[0]] *)
Definition index0 (blocks : list ContentBlock) : M ContentBlock :=
  match blocks with
  | b :: _ => ret b
  | [] => raise (mkExn IndexError "list index out of range" None)
  end.

(** [block.text] *)
Definition text_of (b : ContentBlock) : M string :=
  match b with
  | TextBlock t => ret t
  | OtherBlock => raise (mkExn AttributeError "object has no attribute 'text'" None)
  end.

(** ** class CodeReviewer *)

Record Client : Type := mkClient { client_api_key : string }.

Record CodeReviewer : Type := mkCodeReviewer {
  api_key : option string;
  client : Client;
  model : string
}.

(** [CodeReviewer.__init__(self, api_key=None)] *)
Definition missing_key : string :=
  "ANTHROPIC_API_KEY not found. Set it as an environment variable or pass it directly.".

Definition CodeReviewer_init (w : World) (api_key : option string) : M CodeReviewer :=
  let self_api_key := py_or api_key (getenv w "ANTHROPIC_API_KEY") in
  if negb (truthy_opt self_api_key) then
    raise (mkExn ValueError missing_key None)
  else
    ret {| api_key := self_api_key;
           client := mkClient (the self_api_key);
           model := "claude-haiku-4-5" |}.

(** The command line [get_git_diff] builds: staged changes only, or the
    three-dot diff against the target branch. *)
Definition git_diff_cmd (target_branch : string) (staged_only : bool) : list string :=
  if staged_only then ["git"; "diff"; "--cached"]
  else ["git"; "diff"; fstr [target_branch; "...HEAD"]].

(** [CodeReviewer.get_git_diff(self, target_branch="main", staged_only=False)] *)
Definition get_git_diff (w : World) (self : CodeReviewer)
    (target_branch : string) (staged_only : bool) : M (option string) :=
  try_except
    (let cmd := git_diff_cmd target_branch staged_only in
     result <- subprocess_run w cmd ;;
     ret (Some (stdout result)))
    [ (CalledProcessError,
       fun e =>
         logger_error (fstr ["Error getting git diff: "; show (exn_stderr e)]) ;;
         ret None) ].

Definition system_prompt : string :=
  fstr [
"You are an expert code reviewer. Analyze the provided git diff and provide a thorough, actionable code review.

Focus on:
1. **Bugs & Logic Errors**: Potential runtime errors, edge cases, null/undefined handling
2. **Security Issues**: Vulnerabilities, injection risks, authentication/authorization problems
3. **Performance**: Inefficient algorithms, memory leaks, unnecessary computations
4. **Code Quality**: Readability, maintainability, naming conventions, complexity
5. **Best Practices**: Language-specific idioms, design patterns, error handling

Format your review as:
## Summary
Brief overview of changes and overall assessment

## Critical Issues (";
    of_codes [195; 176; 197; 184; 226; 128; 157; 194; 180];
")
Issues that must be fixed before merge

## Warnings (";
    of_codes [195; 176; 197; 184; 197; 184; 194; 161];
")
Important issues to address

## Suggestions (";
    of_codes [195; 176; 197; 184; 197; 184; 194; 162];
")
Nice-to-have improvements

## Positive Notes (";
    of_codes [195; 162; 197; 147; 226; 128; 166];
")
What was done well

Be specific, reference line numbers when possible, and provide code examples for fixes." ].

(** The literal pieces of the user message. *)
Definition user_head : string := "Review this code change:".
Definition fence_open : string := "```diff".
Definition fence_close : string := "```".
Definition user_tail : string :=
  "Provide a detailed review following the format specified.".

(** The f-string [user_prompt] of [review_code]. *)
Definition user_prompt (diff_content context : string) : string :=
  fstr [ user_head; nl; nl;
         context; nl; nl;
         fence_open; nl;
         diff_content; nl;
         fence_close; nl; nl;
         user_tail ].

Definition review_request (self : CodeReviewer) (diff_content context : string)
  : Request :=
  {| req_model := model self;
     req_max_tokens := 4000;
     req_messages := [("user", user_prompt diff_content context)];
     req_system := system_prompt |}.

(** [CodeReviewer.review_code(self, diff_content, context="")] *)
Definition review_code (w : World) (self : CodeReviewer)
    (diff_content context : string) : M (option string) :=
  try_except
    (message <- client_messages_create w (review_request self diff_content context) ;;
     block <- index0 (content message) ;;
     text <- text_of block ;;
     ret (Some text))
    [ (APIError,
       fun e =>
         logger_error (fstr ["Anthropic API Error: "; exn_str e]) ;;
         ret None);
      (Exception,
       fun e =>
         logger_error (fstr ["Unexpected error during API call: ";
                             class_name (exn_cls e); ": "; exn_str e]) ;;
         ret None) ].

(** Terminal colours. *)
Definition HEADER : string := esc ++ "[95m".
Definition OKBLUE : string := esc ++ "[94m".
Definition OKGREEN : string := esc ++ "[92m".
Definition WARNING : string := esc ++ "[93m".
Definition FAIL : string := esc ++ "[91m".
Definition ENDC : string := esc ++ "[0m".
Definition BOLD : string := esc ++ "[1m".

(** What the loop body of [format_review] passes to [print] for one line. *)
Definition format_line (line : string) : string :=
  if startswith line "## Critical" then fstr [FAIL; BOLD; line; ENDC]
  else if startswith line "## Warning" then fstr [WARNING; BOLD; line; ENDC]
  else if startswith line "## Suggestion" then fstr [OKBLUE; BOLD; line; ENDC]
  else if startswith line "## Positive" then fstr [OKGREEN; BOLD; line; ENDC]
  else if startswith line "##" then fstr [BOLD; line; ENDC]
  else line.

(** [CodeReviewer.format_review(self, review_text)] *)
Definition format_review (self : CodeReviewer) (review_text : string) : M unit :=
  print (nl ++ repeat "=" 80) ;;
  print (fstr [BOLD; HEADER;
               of_codes [195; 176; 197; 184; 194; 164; 226; 128; 147];
               " AI CODE REVIEW"; ENDC]) ;;
  print (repeat "=" 80 ++ nl) ;;
  let lines := split_nl review_text in
  for_each lines (fun line => print (format_line line)) ;;
  print (nl ++ repeat "=" 80 ++ nl).

(** ** main *)

(** The parsed command line. *)
Record Args : Type := mkArgs {
  diff_file : option string;
  target_branch : string;
  staged : bool;
  context : string
}.

(** What [parse_args] gives when no option is passed. *)
Definition default_args : Args :=
  {| diff_file := None; target_branch := "main"; staged := false; context := "" |}.

(** The literal log messages of [main]. *)
Definition no_changes : string := "No changes found to review.".
Definition setup_hint_1 : string := nl ++ "To set up your API key:".
Definition setup_hint_2 : string := "  export ANTHROPIC_API_KEY='your-api-key-here'".
Definition getting_diff : string :=
  of_codes [195; 176; 197; 184; 226; 128; 156; 197; 160] ++ " Getting git diff...".
Definition reviewing : string :=
  of_codes [195; 176; 197; 184; 194; 164; 226; 128; 147]
  ++ " Reviewing code with Claude Haiku 4.5..." ++ nl.
Definition review_failed : string :=
  "Failed to get review from API. Check the error messages above for details.".

(** [main()], from the point where [parser.parse_args()] has returned
    [args].  What [argparse] does by itself before that (the help text and
    exit code 0 on [-h], the usage message and exit code 2 on a bad command
    line) is not part of this function. *)
Definition main (w : World) (args : Args) : M unit :=
  (* Initialize reviewer *)
  reviewer <-
    try_except (CodeReviewer_init w None)
      [ (ValueError,
         fun e =>
           logger_error (fstr ["Error: "; exn_str e]) ;;
           logger_error setup_hint_1 ;;
           logger_error setup_hint_2 ;;
           sys_exit 1) ] ;;
  (* Get the diff *)
  diff_content <-
    (if truthy_opt (diff_file args) then
       (* Read from file *)
       try_except (open_and_read w (the (diff_file args)))
         [ (FileNotFoundError,
            fun _ =>
              logger_error (fstr ["Error: File '"; the (diff_file args); "' not found"]) ;;
              sys_exit 1) ]
     else
       (* Get from git *)
       logger_info getting_diff ;;
       diff_content <- get_git_diff w reviewer (target_branch args) (staged args) ;;
       if negb (truthy_opt diff_content) then
         logger_info no_changes ;; sys_exit 1
       else if negb (truthy (strip (the diff_content))) then
         logger_info no_changes ;; sys_exit 0
       else ret (the diff_content)) ;;
  (* Review the code *)
  logger_info reviewing ;;
  review <- review_code w reviewer diff_content (context args) ;;
  if truthy_opt review then format_review reviewer (the review)
  else
    logger_error review_failed ;;
    sys_exit 1.

(** ** Observations on strings *)

(** [s] holds no newline. *)
Fixpoint no_newline (s : string) : bool :=
  match s with
  | EmptyString => true
  | String c s' => negb (Ascii.eqb c (ascii_of_nat 10)) && no_newline s'
  end.

(** The number of newlines of [s]. *)
Fixpoint count_nl (s : string) : nat :=
  match s with
  | EmptyString => 0
  | String c s' =>
      (if Ascii.eqb c (ascii_of_nat 10) then 1 else 0) + count_nl s'
  end.



(** ** The renderer's rule table, as the specification words it *)

Inductive style : Type :=
| StyleFailure   (* bold + failure/red *)
| StyleWarning   (* bold + warning/yellow *)
| StyleInfo      (* bold + info/blue *)
| StyleSuccess   (* bold + success/green *)
| StyleHeading   (* bold, no colour *)
| StylePlain.    (* unstyled *)

(** The ordered table of (prefix, style) rules. *)
Definition spec_style_table : list (string * style) :=
  [ ("## Critical", StyleFailure);
    ("## Warning", StyleWarning);
    ("## Suggestion", StyleInfo);
    ("## Positive", StyleSuccess);
    ("##", StyleHeading) ].

(** First matching rule wins; no match means plain. *)
Definition spec_classify (line : string) : style :=
  match find (fun rule => startswith line (fst rule)) spec_style_table with
  | Some (_, st) => st
  | None => StylePlain
  end.

(** The markers a style puts before and after the line's text. *)
Definition style_markers (st : style) : string * string :=
  match st with
  | StyleFailure => (FAIL ++ BOLD, ENDC)
  | StyleWarning => (WARNING ++ BOLD, ENDC)
  | StyleInfo => (OKBLUE ++ BOLD, ENDC)
  | StyleSuccess => (OKGREEN ++ BOLD, ENDC)
  | StyleHeading => (BOLD, ENDC)
  | StylePlain => ("", "")
  end.

Definition apply_style (st : style) (line : string) : string :=
  fst (style_markers st) ++ line ++ snd (style_markers st).

Definition spec_render_line (line : string) : string :=
  apply_style (spec_classify line) line.

(** [out] is [line] with the markers of one style around it. *)
Definition styled_as (out line : string) : Prop :=
  exists st, out = apply_style st line.

(** The three banner lines and the closing rule of [format_review]. *)
Definition banner : list string :=
  [ nl ++ repeat "=" 80;
    fstr [BOLD; HEADER;
          of_codes [195; 176; 197; 184; 194; 164; 226; 128; 147];
          " AI CODE REVIEW"; ENDC];
    repeat "=" 80 ++ nl ].

Definition closing_rule : string := nl ++ repeat "=" 80 ++ nl.


(** ** Observations on the user message *)

(** The diff inside its fenced code block labelled as diff syntax. *)
Definition fenced (diff_content : string) : string :=
  fence_open ++ nl ++ diff_content ++ nl ++ fence_close.

(** [in_order parts msg]: the [parts] occur in [msg] one after the other,
    without overlapping. *)
Inductive in_order : list string -> string -> Prop :=
| in_order_nil (msg : string) : in_order [] msg
| in_order_cons (p : string) (ps : list string) (pre rest : string) :
    in_order ps rest -> in_order (p :: ps) (pre ++ p ++ rest).

(** What follows the leftmost occurrence of [p] in [s]. *)
Fixpoint after_first (p s : string) : option string :=
  match s with
  | EmptyString => if String.prefix p "" then Some "" else None
  | String _ s' =>
      if String.prefix p s then Some (drop (String.length p) s)
      else after_first p s'
  end.

(** Greedy search for the parts, each after the previous one. *)
Fixpoint in_orderb (parts : list string) (s : string) : bool :=
  match parts with
  | [] => true
  | p :: ps =>
      match after_first p s with
      | Some rest => in_orderb ps rest
      | None => false
      end
  end.

(** The order of the message's parts as the specification words it. *)
Definition spec_order (diff_content context : string) : list string :=
  [context; user_head; fenced diff_content; user_tail].

(** The order of the parts in the source's f-string. *)
Definition source_order (diff_content context : string) : list string :=
  [user_head; context; fenced diff_content; user_tail].



(** ** Observations on a run *)

(** The reviewer [main] works with when the credential is set. *)
Definition reviewer_of (w : World) : CodeReviewer :=
  {| api_key := getenv w "ANTHROPIC_API_KEY";
     client := mkClient (the (getenv w "ANTHROPIC_API_KEY"));
     model := "claude-haiku-4-5" |}.

(** A world whose oracles answer the same whatever they are asked. *)
Definition constant_world (key : option string) (file : exn + string)
    (proc : exn + CompletedProcess) (svc : exn + Message) : World :=
  {| getenv := fun _ => key;
     open_read := fun _ => file;
     run_process := fun _ => proc;
     messages_create := fun _ => svc |}.

Definition canned_review : Message :=
  mkMessage [TextBlock ("## Summary" ++ nl ++ "Looks fine.")].

Definition no_such_file : exn :=
  mkExn FileNotFoundError "[Errno 2] No such file or directory: 'change.diff'" None.

Definition permission_denied : exn :=
  mkExn PermissionError "[Errno 13] Permission denied: 'change.diff'" None.

(** The credential is set and [git diff] exits zero printing [out]. *)
Definition world_git_ok (out : string) : World :=
  constant_world (Some "sk-test") (inl no_such_file)
    (inr (mkCompleted 0 out "")) (inr canned_review).

(** The credential is set and [git diff] exits with 128. *)
Definition world_git_failed : World :=
  constant_world (Some "sk-test") (inl no_such_file)
    (inr (mkCompleted 128 "" "fatal: not a git repository"))
    (inr canned_review).

(** The credential is set and reading the diff file answers [file]. *)
Definition world_file (file : exn + string) (svc : exn + Message) : World :=
  constant_world (Some "sk-test") file
    (inr (mkCompleted 0 "" "")) svc.

(** The credential is not set. *)
Definition world_no_key : World :=
  constant_world None (inr "+x = 1") (inr (mkCompleted 0 "+x = 1" ""))
    (inr canned_review).

Definition args_file : Args :=
  {| diff_file := Some "change.diff"; target_branch := "main";
     staged := false; context := "" |}.


(** ** The two stages of [main] after the reviewer is built *)

(** "Get the diff": the [if args.diff_file: ... else: ...] statement of
    [main]; its value is [diff_content]. *)
Definition diff_stage (w : World) (reviewer : CodeReviewer) (args : Args) : M string :=
  if truthy_opt (diff_file args) then
    try_except (open_and_read w (the (diff_file args)))
      [ (FileNotFoundError,
         fun _ =>
           logger_error (fstr ["Error: File '"; the (diff_file args); "' not found"]) ;;
           sys_exit 1) ]
  else
    logger_info getting_diff ;;
    diff_content <- get_git_diff w reviewer (target_branch args) (staged args) ;;
    if negb (truthy_opt diff_content) then
      logger_info no_changes ;; sys_exit 1
    else if negb (truthy (strip (the diff_content))) then
      logger_info no_changes ;; sys_exit 0
    else ret (the diff_content).

(** "Review the code": the rest of [main]. *)
Definition review_stage (w : World) (reviewer : CodeReviewer)
    (diff_content context : string) : M unit :=
  logger_info reviewing ;;
  review <- review_code w reviewer diff_content context ;;
  if truthy_opt review then format_review reviewer (the review)
  else
    logger_error review_failed ;;
    sys_exit 1.

(** ** More observations on a trace *)

Definition is_read_file (e : event) : bool :=
  match e with ReadFile _ => true | _ => false end.

Definition count (f : event -> bool) (t : list event) : nat :=
  List.length (filter f t).

(** The request of a service call is the one [review_code] builds: the fixed
    model, a ceiling of 4000 tokens, the fixed system prompt and a single
    message of role "user". *)
Definition request_ok (e : event) : bool :=
  match e with
  | CallService req =>
      (req_model req =? "claude-haiku-4-5")
      && (req_max_tokens req =? 4000)%Z
      && (req_system req =? system_prompt)
      && match req_messages req with
         | [(role, _)] => role =? "user"
         | _ => false
         end
  | _ => true
  end.

(** What [format_review] prints for a review text. *)
Definition rendering (text : string) : list string :=
  (banner ++ map format_line (split_nl text) ++ [closing_rule])%list.

Definition git_not_installed : exn :=
  mkExn FileNotFoundError "[Errno 2] No such file or directory: 'git'" None.

(** The credential is set and [git] cannot be started. *)
Definition world_git_missing : World :=
  constant_world (Some "sk-test") (inl no_such_file)
    (inl git_not_installed) (inr canned_review).

(** Where an exception that leaves [main] comes from: reading the diff file
    failed otherwise than by a missing file, or starting [git] failed. *)
Definition escapes (w : World) (args : Args) (e : exn) : Prop :=
  (truthy_opt (diff_file args) = true
   /\ open_read w (the (diff_file args)) = inl e
   /\ isinstance e FileNotFoundError = false)
  \/ (truthy_opt (diff_file args) = false
      /\ run_process w (git_diff_cmd (target_branch args) (staged args)) = inl e
      /\ isinstance e CalledProcessError = false).

(** [main] has obtained the diff [d]: the diff file was read, or [git diff]
    exited zero with an output that is not blank. *)
Definition diff_obtained (w : World) (args : Args) (d : string) : Prop :=
  (truthy_opt (diff_file args) = true
   /\ open_read w (the (diff_file args)) = inr d)
  \/ (truthy_opt (diff_file args) = false
      /\ exists cp,
           run_process w (git_diff_cmd (target_branch args) (staged args)) = inr cp
           /\ returncode cp = 0%Z
           /\ stdout cp = d
           /\ strip d <> "").

(** What [main] records while obtaining it. *)
Definition source_events (args : Args) : list event :=
  if truthy_opt (diff_file args) then [ReadFile (the (diff_file args))]
  else [ LogInfo getting_diff;
         RunProcess (git_diff_cmd (target_branch args) (staged args)) ].


(** [git diff] exited zero with an output that is not empty but that
    [strip()] empties; no diff file was given. *)
Definition blank_git (w : World) (args : Args) : Prop :=
  truthy_opt (diff_file args) = false
  /\ exists cp,
       run_process w (git_diff_cmd (target_branch args) (staged args)) = inr cp
       /\ returncode cp = 0%Z
       /\ stdout cp <> ""
       /\ strip (stdout cp) = "".

(** [main] has obtained the diff [d] and the service has answered the request
    built from it with a first content block holding the non-empty [text]. *)
Definition review_obtained (w : World) (args : Args) (d text : string) : Prop :=
  diff_obtained w args d
  /\ text <> ""
  /\ exists rest,
       messages_create w (review_request (reviewer_of w) d (context args))
       = inr (mkMessage (TextBlock text :: rest)).
(** * Properties *)

(** ** Strings *)

Section StringFacts.

Lemma app_empty_r (s : string) : s ++ "" = s.
Proof. induction s as [|c s IH]; simpl; [reflexivity | now rewrite IH]. Qed.

Lemma app_assoc (a b c : string) : (a ++ b) ++ c = a ++ (b ++ c).
Proof. induction a as [|x a IH]; simpl; [reflexivity | now rewrite IH]. Qed.

Lemma length_app (a b : string) :
  String.length (a ++ b) = String.length a + String.length b.
Proof. induction a as [|x a IH]; simpl; [reflexivity | now rewrite IH]. Qed.

Lemma drop_app (a b : string) : drop (String.length a) (a ++ b) = b.
Proof. induction a as [|x a IH]; simpl; [now destruct b | exact IH]. Qed.

Lemma prefix_app (p s : string) : String.prefix p (p ++ s) = true.
Proof.
  induction p as [|x p IH]; simpl; [now destruct s|].
  destruct (ascii_dec x x) as [_|n]; [exact IH | now elim n].
Qed.

Lemma prefix_split (p s : string) :
  String.prefix p s = true -> s = p ++ drop (String.length p) s.
Proof.
  revert s; induction p as [|x p IH]; intros s H; [reflexivity|].
  destruct s as [|y s]; simpl in H; [discriminate|].
  destruct (ascii_dec x y) as [->|]; [|discriminate].
  simpl. f_equal. now apply IH.
Qed.

Lemma startswith_iff (line pre : string) :
  startswith line pre = true <-> exists rest, line = pre ++ rest.
Proof.
  unfold startswith; split.
  - intros H; eexists; now apply prefix_split.
  - intros [rest ->]; apply prefix_app.
Qed.

Lemma fstr_app (ps qs : list string) : fstr (ps ++ qs) = fstr ps ++ fstr qs.
Proof.
  induction ps as [|p ps IH]; simpl; [reflexivity|].
  now rewrite IH, app_assoc.
Qed.

End StringFacts.

(** ** [str.split] and [str.join] *)

Section Split.

Lemma split_nl_not_nil (s : string) : split_nl s <> [].
Proof.
  induction s as [|c s IH]; simpl; [discriminate|].
  destruct (Ascii.eqb c _); [discriminate|].
  destruct (split_nl s); [contradiction | discriminate].
Qed.

Lemma join_split (s : string) : join_nl (split_nl s) = s.
Proof.
  induction s as [|c s IH]; [reflexivity|].
  simpl. destruct (Ascii.eqb_spec c (ascii_of_nat 10)) as [->|Hc].
  - pose proof (split_nl_not_nil s) as Hn.
    simpl. destruct (split_nl s) as [|l ls]; [contradiction|].
    unfold nl, chr. simpl. f_equal. exact IH.
  - pose proof (split_nl_not_nil s) as Hn.
    destruct (split_nl s) as [|l ls]; [contradiction|].
    destruct ls as [|l' ls]; simpl in *; now rewrite IH.
Qed.

Lemma split_no_newline (s : string) :
  forallb no_newline (split_nl s) = true.
Proof.
  induction s as [|c s IH]; [reflexivity|].
  simpl. destruct (Ascii.eqb c (ascii_of_nat 10)) eqn:Hc; [exact IH|].
  pose proof (split_nl_not_nil s) as Hn.
  destruct (split_nl s) as [|l ls]; [contradiction|].
  simpl in *. now rewrite Hc.
Qed.

Lemma split_length (s : string) :
  List.length (split_nl s) = S (count_nl s).
Proof.
  induction s as [|c s IH]; [reflexivity|].
  simpl. destruct (Ascii.eqb c (ascii_of_nat 10)); simpl; [now rewrite IH|].
  pose proof (split_nl_not_nil s) as Hn.
  destruct (split_nl s) as [|l ls]; [contradiction | exact IH].
Qed.

Example split_nl_samples :
  split_nl "" = [""]
  /\ split_nl ("a" ++ nl ++ nl ++ "b" ++ nl) = ["a"; ""; "b"; ""].
Proof. split; reflexivity. Qed.

Example strip_samples :
  strip "" = ""
  /\ strip ("   " ++ nl) = ""
  /\ strip (chr 9 ++ " a b " ++ chr 13 ++ nl) = "a b"
  /\ strip (of_codes [194; 160; 226; 128; 168]) = "".
Proof. repeat split; reflexivity. Qed.

End Split.


(** ** The renderer *)

Section Renderer.

Local Ltac styled := cbn; rewrite ?app_empty_r; reflexivity.

(** The source's chain of tests computes the table's first match. *)
Lemma format_line_table (line : string) :
  format_line line = spec_render_line line.
Proof.
  unfold format_line, spec_render_line, spec_classify, spec_style_table.
  cbn [find fst].
  destruct (startswith line "## Critical"); [styled|].
  destruct (startswith line "## Warning"); [styled|].
  destruct (startswith line "## Suggestion"); [styled|].
  destruct (startswith line "## Positive"); [styled|].
  destruct (startswith line "##"); styled.
Qed.

(** The four coloured prefixes exclude one another, so a later one is never
    shadowed by an earlier one. *)
Lemma coloured_prefixes_disjoint (line : string) :
  (startswith line "## Warning" = true -> startswith line "## Critical" = false)
  /\ (startswith line "## Suggestion" = true ->
      startswith line "## Critical" = false /\ startswith line "## Warning" = false)
  /\ (startswith line "## Positive" = true ->
      startswith line "## Critical" = false /\ startswith line "## Warning" = false
      /\ startswith line "## Suggestion" = false).
Proof.
  split; [|split]; intros H; apply startswith_iff in H;
    destruct H as [rest ->]; repeat split; reflexivity.
Qed.

Lemma styled_as_format_line (line : string) : styled_as (format_line line) line.
Proof. exists (spec_classify line). apply format_line_table. Qed.

Lemma for_each_print (f : string -> string) (lines : list string) :
  for_each lines (fun line => print (f line))
  = (map (fun line => Print (f line)) lines, Ret tt).
Proof.
  induction lines as [|l ls IH]; [reflexivity|].
  cbn [for_each]. rewrite IH. reflexivity.
Qed.

Lemma printed_map_print (ls : list string) : printed (map Print ls) = ls.
Proof. induction ls as [|l ls IH]; [reflexivity | cbn; now rewrite IH]. Qed.

Lemma format_review_trace (self : CodeReviewer) (text : string) :
  format_review self text
  = (map Print (banner ++ map format_line (split_nl text) ++ [closing_rule])%list,
     Ret tt).
Proof.
  unfold format_review. rewrite for_each_print.
  unfold print, emit, bind, banner, closing_rule.
  rewrite <- map_map with (f := format_line) (g := Print).
  cbn [List.app map]. rewrite map_app. reflexivity.
Qed.

(** C4: [format_review] prints, for each line of the text, what the first
    matching rule of the ordered prefix table gives: "## Critical" bold red,
    "## Warning" bold yellow, "## Suggestion" bold blue, "## Positive" bold
    green, any other "##" line bold without colour, every other line
    verbatim; the test is on the line's start. *)
Theorem format_line_first_match (self : CodeReviewer) (text line : string) :
  format_review self text
  = (map Print (banner ++ map format_line (split_nl text) ++ [closing_rule])%list,
     Ret tt)
  /\ printed (fst (format_review self text))
     = (banner ++ map spec_render_line (split_nl text) ++ [closing_rule])%list
  /\ format_line line = spec_render_line line
  /\ (startswith line "## Critical" = true ->
      format_line line = FAIL ++ BOLD ++ line ++ ENDC)
  /\ (startswith line "## Warning" = true ->
      format_line line = WARNING ++ BOLD ++ line ++ ENDC)
  /\ (startswith line "## Suggestion" = true ->
      format_line line = OKBLUE ++ BOLD ++ line ++ ENDC)
  /\ (startswith line "## Positive" = true ->
      format_line line = OKGREEN ++ BOLD ++ line ++ ENDC)
  /\ (startswith line "##" = true ->
      startswith line "## Critical" = false ->
      startswith line "## Warning" = false ->
      startswith line "## Suggestion" = false ->
      startswith line "## Positive" = false ->
      format_line line = BOLD ++ line ++ ENDC)
  /\ (startswith line "##" = false -> format_line line = line).
Proof.
  split; [apply format_review_trace|].
  split.
  { rewrite format_review_trace. cbn [fst]. rewrite printed_map_print.
    do 2 f_equal. apply map_ext. exact format_line_table. }
  destruct (coloured_prefixes_disjoint line) as (Hw & Hs & Hp).
  split; [apply format_line_table|].
  unfold format_line.
  split; [intros ->; styled|].
  split; [intros H; rewrite (Hw H), H; styled|].
  split; [intros H; destruct (Hs H) as [-> ->]; rewrite H; styled|].
  split; [intros H; destruct (Hp H) as (-> & -> & ->); rewrite H; styled|].
  split; [intros -> -> -> -> ->; styled|].
  intros H.
  assert (Hno : forall rest, startswith line ("##" ++ rest) = false).
  { intros rest. destruct (startswith line ("##" ++ rest)) eqn:E; [|reflexivity].
    apply startswith_iff in E. destruct E as [r ->].
    rewrite app_assoc in H. unfold startswith in H.
    now rewrite prefix_app in H. }
  rewrite (Hno " Critical" : startswith line "## Critical" = false).
  rewrite (Hno " Warning" : startswith line "## Warning" = false).
  rewrite (Hno " Suggestion" : startswith line "## Suggestion" = false).
  rewrite (Hno " Positive" : startswith line "## Positive" = false).
  now rewrite H.
Qed.

Lemma format_line_first_match_witness :
  printed (fst (format_review
                  {| api_key := Some "k"; client := mkClient "k"; model := "m" |}
                  ("## Critical Issues (something)" ++ nl ++ "## Warnings"
                   ++ nl ++ "plain")))
  = (banner ++ [ fstr [FAIL; BOLD; "## Critical Issues (something)"; ENDC];
                 fstr [WARNING; BOLD; "## Warnings"; ENDC];
                 "plain" ]
            ++ [closing_rule])%list
  /\ format_line "## Critical Issues (something)"
     = FAIL ++ BOLD ++ "## Critical Issues (something)" ++ ENDC
  /\ format_line "## Warnings" = WARNING ++ BOLD ++ "## Warnings" ++ ENDC
  /\ format_line "## summary" = BOLD ++ "## summary" ++ ENDC
  /\ format_line "# Critical" = "# Critical".
Proof.
  pose (self := {| api_key := Some "k"; client := mkClient "k"; model := "m" |}).
  pose (text := "## Critical Issues (something)" ++ nl ++ "## Warnings"
                ++ nl ++ "plain").
  split.
  { exact (proj1 (proj2 (format_line_first_match self text "plain"))). }
  split; [apply (format_line_first_match self text "## Critical Issues (something)");
          reflexivity|].
  split; [apply (format_line_first_match self text "## Warnings"); reflexivity|].
  split; [apply (format_line_first_match self text "## summary"); reflexivity|].
  apply (format_line_first_match self text "# Critical"); reflexivity.
Defined.

(** The prefix test is case-sensitive: a lower-case heading word only gets the
    generic heading style. *)
Example format_line_case_sensitive :
  format_line "## critical issues" = BOLD ++ "## critical issues" ++ ENDC.
Proof. reflexivity. Qed.

(** C6: the review text is split on line breaks and every line is passed to
    [print] exactly once, in order, empty lines included; what is printed for
    a line is that line with the markers of one style around it. *)
Theorem format_review_lines (self : CodeReviewer) (text : string) :
  snd (format_review self text) = Ret tt
  /\ forallb is_print (fst (format_review self text)) = true
  /\ (exists body,
        printed (fst (format_review self text))
        = (banner ++ body ++ [closing_rule])%list
        /\ Forall2 styled_as body (split_nl text))
  /\ join_nl (split_nl text) = text
  /\ forallb no_newline (split_nl text) = true
  /\ List.length (split_nl text) = S (count_nl text).
Proof.
  rewrite format_review_trace. cbn [fst snd].
  split; [reflexivity|].
  split. { apply forallb_forall. intros e He. apply in_map_iff in He.
           now destruct He as (l & <- & _). }
  split.
  { exists (map format_line (split_nl text)). split.
    - apply printed_map_print.
    - induction (split_nl text) as [|l ls IH]; cbn [map]; constructor;
        [apply styled_as_format_line | exact IH]. }
  split; [apply join_split|].
  split; [apply split_no_newline | apply split_length].
Qed.

(** Empty lines and order survive: a run on a small review. *)
Example format_review_sample :
  printed (fst (format_review
                  {| api_key := Some "k"; client := mkClient "k"; model := "m" |}
                  ("## Summary" ++ nl ++ nl ++ "## Positive Notes" ++ nl ++ "ok" ++ nl)))
  = (banner ++ [ fstr [BOLD; "## Summary"; ENDC]; "";
                 fstr [OKGREEN; BOLD; "## Positive Notes"; ENDC]; "ok"; "" ]
            ++ [closing_rule])%list.
Proof. reflexivity. Qed.

End Renderer.


(** ** The user message *)

Section UserMessage.

Lemma app_eq_suffix (u b c d : string) :
  u ++ b = c ++ d -> String.length c <= String.length u ->
  exists x, d = x ++ b.
Proof.
  revert u; induction c as [|y c IH]; intros u E L.
  - exists u. now rewrite E.
  - destruct u as [|z u]; simpl in L; [lia|].
    simpl in E. injection E as _ E. apply (IH u E). lia.
Qed.

Lemma after_first_sound (p s r : string) :
  after_first p s = Some r -> exists pre, s = pre ++ p ++ r.
Proof.
  induction s as [|c s IH]; cbn [after_first].
  - destruct p; simpl; [|discriminate]. intros [= <-]. now exists "".
  - destruct (String.prefix p (String c s)) eqn:E.
    + intros [= <-]. exists "". simpl. now apply prefix_split.
    + intros H. destruct (IH H) as [pre ->]. now exists (String c pre).
Qed.

Lemma after_first_here (p s : string) :
  String.prefix p s = true -> after_first p s = Some (drop (String.length p) s).
Proof.
  destruct s as [|c s]; cbn [after_first]; intros H; rewrite H; [|reflexivity].
  destruct p; [reflexivity | discriminate].
Qed.

Lemma after_first_leftmost (p pre rest : string) :
  exists x, after_first p (pre ++ p ++ rest) = Some (x ++ rest).
Proof.
  induction pre as [|a pre IH].
  - exists "". cbn [append].
    now rewrite after_first_here, drop_app by apply prefix_app.
  - cbn [append after_first].
    destruct (String.prefix p (String a (pre ++ p ++ rest))) eqn:E;
      [|exact IH].
    apply prefix_split in E.
    change (String a (pre ++ p ++ rest)) with (String a pre ++ p ++ rest) in E at 1.
    rewrite <- app_assoc in E.
    destruct (app_eq_suffix _ _ _ _ E) as [x Hx].
    + rewrite length_app. lia.
    + exists x. now rewrite <- Hx.
Qed.

Lemma in_order_weaken (ps : list string) (x s : string) :
  in_order ps s -> in_order ps (x ++ s).
Proof.
  intros H; destruct H as [msg | p ps pre rest H]; [constructor|].
  rewrite <- app_assoc. now constructor.
Qed.

Lemma in_orderb_spec (ps : list string) (s : string) :
  in_orderb ps s = true <-> in_order ps s.
Proof.
  revert s; induction ps as [|p ps IH]; intros s; simpl.
  - split; [constructor | reflexivity].
  - split.
    + destruct (after_first p s) as [r|] eqn:E; [|discriminate].
      intros H. destruct (after_first_sound _ _ _ E) as [pre ->].
      constructor. now apply IH.
    + intros H. inversion H as [|p' ps' pre rest Hr]; subst.
      destruct (after_first_leftmost p pre rest) as [x ->].
      apply IH. now apply in_order_weaken.
Qed.

Lemma user_prompt_shape (diff_content context : string) :
  user_prompt diff_content context
  = (user_head ++ nl ++ nl) ++ context ++ (nl ++ nl)
      ++ fenced diff_content ++ (nl ++ nl ++ user_tail).
Proof.
  unfold user_prompt, fenced. cbn [fstr].
  now rewrite !app_assoc, app_empty_r.
Qed.

Lemma in_order_step (p : string) (ps : list string) (pre rest s : string) :
  s = pre ++ p ++ rest -> in_order ps rest -> in_order (p :: ps) s.
Proof. intros ->; now constructor. Qed.

Lemma user_prompt_length (diff_content context : string) :
  String.length (user_prompt diff_content context)
  = String.length (user_prompt "" "")
    + String.length diff_content + String.length context.
Proof.
  rewrite user_prompt_shape. unfold fenced.
  rewrite !length_app. cbn. lia.
Qed.

(** C3, as the specification words it, fails: with a context the message does
    not hold the context before the instruction line. *)
Lemma user_prompt_context_not_first :
  ~ in_order (spec_order "D" "CTX") (user_prompt "D" "CTX").
Proof.
  intros H. apply in_orderb_spec in H. vm_compute in H. discriminate.
Qed.

(** C3, amended: the user message holds, in this order, the literal
    instruction line, the context string (possibly empty), the diff in a
    fenced code block labelled as diff syntax, and the trailing instruction;
    blank lines separate the four parts and nothing else is added. *)
Theorem user_prompt_order (diff_content context : string) :
  in_order (source_order diff_content context) (user_prompt diff_content context)
  /\ user_prompt diff_content context
     = user_head ++ nl ++ nl ++ context ++ nl ++ nl
         ++ fenced diff_content ++ nl ++ nl ++ user_tail.
Proof.
  split.
  - rewrite user_prompt_shape. unfold source_order.
    eapply (in_order_step _ _ ""); [cbn [append]; now rewrite !app_assoc|].
    eapply (in_order_step _ _ (nl ++ nl)); [now rewrite !app_assoc|].
    eapply (in_order_step _ _ (nl ++ nl)); [reflexivity|].
    eapply (in_order_step _ _ (nl ++ nl) ""); [now rewrite app_empty_r|].
    constructor.
  - rewrite user_prompt_shape. now rewrite !app_assoc.
Qed.

(** C5: for a non-empty diff the user message holds the diff text verbatim
    inside the fenced block; a non-empty context is held verbatim, before the
    block; with an empty context the message is the fixed text around the
    diff and nothing else. *)
Theorem user_prompt_embeds (diff_content context : string) :
  diff_content <> "" ->
  (exists pre post,
      user_prompt diff_content context
      = pre ++ (fence_open ++ nl ++ diff_content ++ nl ++ fence_close) ++ post)
  /\ (context <> "" ->
      exists pre post,
        user_prompt diff_content context = pre ++ context ++ post
        /\ in_order [fenced diff_content] post)
  /\ (context = "" ->
      user_prompt diff_content context
      = user_head ++ nl ++ nl ++ nl ++ nl ++ fenced diff_content
          ++ nl ++ nl ++ user_tail
      /\ String.length (user_prompt diff_content context)
         = String.length (user_prompt "" "") + String.length diff_content).
Proof.
  intros _. split; [|split].
  - exists ((user_head ++ nl ++ nl) ++ context ++ (nl ++ nl)),
      (nl ++ nl ++ user_tail).
    rewrite user_prompt_shape. unfold fenced. now rewrite !app_assoc.
  - intros _. exists (user_head ++ nl ++ nl),
      ((nl ++ nl) ++ fenced diff_content ++ (nl ++ nl ++ user_tail)).
    split; [apply user_prompt_shape|]. now constructor; constructor.
  - intros ->. split.
    + rewrite user_prompt_shape. now rewrite !app_assoc.
    + rewrite user_prompt_length. cbn. lia.
Qed.

Lemma user_prompt_embeds_witness :
  (exists pre post,
      user_prompt "+x = 1" "fixes #7"
      = pre ++ (fence_open ++ nl ++ "+x = 1" ++ nl ++ fence_close) ++ post)
  /\ (exists pre post,
        user_prompt "+x = 1" "fixes #7" = pre ++ "fixes #7" ++ post
        /\ in_order [fenced "+x = 1"] post)
  /\ user_prompt "+x = 1" ""
     = user_head ++ nl ++ nl ++ nl ++ nl ++ fenced "+x = 1"
         ++ nl ++ nl ++ user_tail.
Proof.
  split; [|split].
  - apply (user_prompt_embeds "+x = 1" "fixes #7"). discriminate.
  - apply (user_prompt_embeds "+x = 1" "fixes #7"); discriminate.
  - apply (user_prompt_embeds "+x = 1" ""); [discriminate | reflexivity].
Defined.

End UserMessage.


(** ** The pipeline *)

Section Pipeline.

Variable w : World.

Lemma isinstance_Exception (e : exn) : isinstance e Exception = true.
Proof. destruct e as [c s o]; destruct c; reflexivity. Qed.

Lemma init_ok :
  truthy_opt (getenv w "ANTHROPIC_API_KEY") = true ->
  CodeReviewer_init w None = ([], Ret (reviewer_of w)).
Proof.
  intros H. unfold CodeReviewer_init, py_or. cbn [truthy_opt].
  now rewrite H.
Qed.

Lemma init_fails :
  truthy_opt (getenv w "ANTHROPIC_API_KEY") = false ->
  CodeReviewer_init w None = ([], Raise (mkExn ValueError missing_key None)).
Proof.
  intros H. unfold CodeReviewer_init, py_or. cbn [truthy_opt].
  now rewrite H.
Qed.

(** C8: without a credential the construction of the reviewer fails at once
    with a [ValueError]; [main] reports it with the set-up instructions and
    exits with code 1, having run no process and called no service. *)
Theorem missing_credential_fails_first (args : Args) :
  truthy_opt (getenv w "ANTHROPIC_API_KEY") = false ->
  CodeReviewer_init w None = ([], Raise (mkExn ValueError missing_key None))
  /\ main w args
     = ([ LogError ("Error: " ++ missing_key);
          LogError setup_hint_1;
          LogError setup_hint_2 ],
        Exit 1)
  /\ invokes_process (fst (main w args)) = false
  /\ invokes_service (fst (main w args)) = false.
Proof.
  intros H.
  assert (Hm : main w args
               = ([ LogError ("Error: " ++ missing_key);
                    LogError setup_hint_1;
                    LogError setup_hint_2 ], Exit 1)).
  { unfold main. rewrite (init_fails H). reflexivity. }
  split; [exact (init_fails H)|].
  split; [exact Hm|].
  now rewrite Hm.
Qed.

Lemma get_git_diff_ok (self : CodeReviewer) (tb : string) (st : bool)
    (cp : CompletedProcess) :
  run_process w (git_diff_cmd tb st) = inr cp ->
  returncode cp = 0%Z ->
  get_git_diff w self tb st
  = ([RunProcess (git_diff_cmd tb st)], Ret (Some (stdout cp))).
Proof.
  intros Hrun Hrc. unfold get_git_diff, subprocess_run.
  cbn [emit bind lift]. rewrite Hrun. cbn [lift ret bind].
  rewrite Hrc. reflexivity.
Qed.

Lemma get_git_diff_failed (self : CodeReviewer) (tb : string) (st : bool)
    (cp : CompletedProcess) :
  run_process w (git_diff_cmd tb st) = inr cp ->
  returncode cp <> 0%Z ->
  get_git_diff w self tb st
  = ([ RunProcess (git_diff_cmd tb st);
       LogError (fstr ["Error getting git diff: "; stderr cp]) ],
     Ret None).
Proof.
  intros Hrun Hrc. unfold get_git_diff, subprocess_run.
  cbn [emit bind lift]. rewrite Hrun. cbn [lift ret bind].
  apply Z.eqb_neq in Hrc. rewrite Hrc. reflexivity.
Qed.

(** C7: when the version-control tool exits non-zero, [get_git_diff] logs the
    tool's diagnostic output and returns [None] without raising, and [main]
    then exits with code 1 without calling the service. *)
Theorem git_failure_is_absent (args : Args) (cp : CompletedProcess) :
  truthy_opt (getenv w "ANTHROPIC_API_KEY") = true ->
  truthy_opt (diff_file args) = false ->
  run_process w (git_diff_cmd (target_branch args) (staged args)) = inr cp ->
  returncode cp <> 0%Z ->
  get_git_diff w (reviewer_of w) (target_branch args) (staged args)
  = ([ RunProcess (git_diff_cmd (target_branch args) (staged args));
       LogError (fstr ["Error getting git diff: "; stderr cp]) ],
     Ret None)
  /\ main w args
     = ([ LogInfo getting_diff;
          RunProcess (git_diff_cmd (target_branch args) (staged args));
          LogError (fstr ["Error getting git diff: "; stderr cp]);
          LogInfo no_changes ],
        Exit 1)
  /\ invokes_service (fst (main w args)) = false.
Proof.
  intros Hkey Hfile Hrun Hrc.
  pose proof (get_git_diff_failed (reviewer_of w) _ _ _ Hrun Hrc) as Hgit.
  assert (Hm : main w args
               = ([ LogInfo getting_diff;
                    RunProcess (git_diff_cmd (target_branch args) (staged args));
                    LogError (fstr ["Error getting git diff: "; stderr cp]);
                    LogInfo no_changes ], Exit 1)).
  { unfold main. rewrite (init_ok Hkey), Hfile. cbn [try_except bind].
    rewrite Hgit. reflexivity. }
  split; [exact Hgit|]. split; [exact Hm|]. now rewrite Hm.
Qed.

(** An empty [git diff] output is taken for a missing one: exit code 1. *)
Lemma main_git_empty (args : Args) (cp : CompletedProcess) :
  truthy_opt (getenv w "ANTHROPIC_API_KEY") = true ->
  truthy_opt (diff_file args) = false ->
  run_process w (git_diff_cmd (target_branch args) (staged args)) = inr cp ->
  returncode cp = 0%Z ->
  stdout cp = "" ->
  main w args
  = ([ LogInfo getting_diff;
       RunProcess (git_diff_cmd (target_branch args) (staged args));
       LogInfo no_changes ],
     Exit 1).
Proof.
  intros Hkey Hfile Hrun Hrc Hout.
  unfold main. rewrite (init_ok Hkey), Hfile. cbn [try_except bind].
  rewrite (get_git_diff_ok (reviewer_of w) _ _ _ Hrun Hrc), Hout.
  reflexivity.
Qed.

(** A non-empty output that is all whitespace is the clean exit: code 0 and
    no call of the service. *)
Lemma main_git_blank (args : Args) (cp : CompletedProcess) :
  truthy_opt (getenv w "ANTHROPIC_API_KEY") = true ->
  truthy_opt (diff_file args) = false ->
  run_process w (git_diff_cmd (target_branch args) (staged args)) = inr cp ->
  returncode cp = 0%Z ->
  stdout cp <> "" ->
  strip (stdout cp) = "" ->
  main w args
  = ([ LogInfo getting_diff;
       RunProcess (git_diff_cmd (target_branch args) (staged args));
       LogInfo no_changes ],
     Exit 0).
Proof.
  intros Hkey Hfile Hrun Hrc Hout Hstrip.
  unfold main. rewrite (init_ok Hkey), Hfile. cbn [try_except bind].
  rewrite (get_git_diff_ok (reviewer_of w) _ _ _ Hrun Hrc).
  cbn [logger_info emit bind app truthy_opt the].
  apply String.eqb_neq in Hout. unfold truthy. rewrite Hout, Hstrip.
  reflexivity.
Qed.

(** *** The review client *)

Lemma review_code_text (self : CodeReviewer) (d c t : string)
    (rest : list ContentBlock) :
  messages_create w (review_request self d c) = inr (mkMessage (TextBlock t :: rest)) ->
  review_code w self d c
  = ([CallService (review_request self d c)], Ret (Some t)).
Proof.
  intros Hsvc. unfold review_code, client_messages_create.
  cbn [emit bind lift]. rewrite Hsvc. reflexivity.
Qed.

Lemma review_code_malformed (self : CodeReviewer) (d c : string) (m : Message) :
  messages_create w (review_request self d c) = inr m ->
  content m = [] \/ (exists rest, content m = OtherBlock :: rest) ->
  exists e,
    (e = mkExn IndexError "list index out of range" None
     \/ e = mkExn AttributeError "object has no attribute 'text'" None)
    /\ review_code w self d c
       = ([ CallService (review_request self d c);
            LogError (fstr ["Unexpected error during API call: ";
                            class_name (exn_cls e); ": "; exn_str e]) ],
          Ret None).
Proof.
  intros Hsvc Hm. unfold review_code, client_messages_create.
  cbn [emit bind lift]. rewrite Hsvc.
  destruct m as [blocks]; cbn [content] in *.
  destruct Hm as [-> | [rest ->]]; eexists; (split; [|reflexivity]); auto.
Qed.

Lemma review_code_api_error (self : CodeReviewer) (d c : string) (e : exn) :
  messages_create w (review_request self d c) = inl e ->
  isinstance e APIError = true ->
  review_code w self d c
  = ([ CallService (review_request self d c);
       LogError (fstr ["Anthropic API Error: "; exn_str e]) ],
     Ret None).
Proof.
  intros Hsvc He. unfold review_code, client_messages_create.
  cbn [emit bind lift]. rewrite Hsvc.
  cbn [lift raise bind try_except select_handler app]. rewrite He. reflexivity.
Qed.

Lemma review_code_other_error (self : CodeReviewer) (d c : string) (e : exn) :
  messages_create w (review_request self d c) = inl e ->
  isinstance e APIError = false ->
  review_code w self d c
  = ([ CallService (review_request self d c);
       LogError (fstr ["Unexpected error during API call: ";
                       class_name (exn_cls e); ": "; exn_str e]) ],
     Ret None).
Proof.
  intros Hsvc He. unfold review_code, client_messages_create.
  cbn [emit bind lift]. rewrite Hsvc.
  cbn [lift raise bind try_except select_handler app].
  rewrite He, isinstance_Exception. reflexivity.
Qed.

(** Whatever the service does, [review_code] calls it once, logs at most one
    error and returns. *)
Lemma review_code_shape (self : CodeReviewer) (d c : string) :
  exists logs v,
    review_code w self d c
    = (CallService (review_request self d c) :: logs, Ret v)
    /\ (logs = [] \/ exists msg, logs = [LogError msg])
    /\ (logs = [] <-> exists t, v = Some t).
Proof.
  destruct (messages_create w (review_request self d c))
    as [e | [[|[t|] rest]]] eqn:Hsvc.
  - destruct (isinstance e APIError) eqn:He.
    + rewrite (review_code_api_error _ _ _ _ Hsvc He).
      eexists _, None. split; [reflexivity|]. split; [eauto|].
      split; [discriminate | intros [t [=]]].
    + rewrite (review_code_other_error _ _ _ _ Hsvc He).
      eexists _, None. split; [reflexivity|]. split; [eauto|].
      split; [discriminate | intros [t [=]]].
  - destruct (review_code_malformed _ _ _ _ Hsvc) as (e & _ & ->); [now left|].
    eexists _, None. split; [reflexivity|]. split; [eauto|].
    split; [discriminate | intros [t [=]]].
  - rewrite (review_code_text _ _ _ _ _ Hsvc).
    exists [], (Some t). split; [reflexivity|]. split; [now left|].
    split; [eauto | intros _; reflexivity].
  - destruct (review_code_malformed _ _ _ _ Hsvc) as (e & _ & ->); [right; now exists rest|].
    eexists _, None. split; [reflexivity|]. split; [eauto|].
    split; [discriminate | intros [t [=]]].
Qed.


(** *** Reading the diff from a file *)

(** C2, amended: when reading the diff file fails because the path does not
    exist, [main] logs the not-found error and exits with code 1, calling no
    service; any other read failure leaves [main] as that same exception,
    uncaught, right after the read. *)
Theorem diff_file_read_failure (args : Args) (e : exn) :
  truthy_opt (getenv w "ANTHROPIC_API_KEY") = true ->
  truthy_opt (diff_file args) = true ->
  open_read w (the (diff_file args)) = inl e ->
  (isinstance e FileNotFoundError = true ->
   main w args
   = ([ ReadFile (the (diff_file args));
        LogError (fstr ["Error: File '"; the (diff_file args); "' not found"]) ],
      Exit 1))
  /\ (isinstance e FileNotFoundError = false ->
      main w args = ([ReadFile (the (diff_file args))], Raise e)).
Proof.
  intros Hkey Hfile Hread.
  split; intros He; unfold main; rewrite (init_ok Hkey), Hfile;
    cbn [try_except bind]; unfold open_and_read; cbn [emit bind];
    rewrite Hread; cbn [lift raise try_except select_handler];
    rewrite He; reflexivity.
Qed.


End Pipeline.

Lemma git_failure_is_absent_witness :
  main world_git_failed default_args
  = ([ LogInfo getting_diff;
       RunProcess ["git"; "diff"; "main...HEAD"];
       LogError "Error getting git diff: fatal: not a git repository";
       LogInfo no_changes ],
     Exit 1)
  /\ invokes_service (fst (main world_git_failed default_args)) = false.
Proof.
  apply (git_failure_is_absent world_git_failed default_args
           (mkCompleted 128 "" "fatal: not a git repository"));
    [reflexivity | reflexivity | reflexivity | discriminate].
Defined.

(** C1 at its two inputs: [git diff] exits zero printing nothing, and [main]
    exits with code 1, not 0; printing blanks and a newline, it exits with
    code 0.  Neither run calls the service. *)
Theorem empty_diff_exit_codes :
  main (world_git_ok "") default_args
  = ([ LogInfo getting_diff;
       RunProcess ["git"; "diff"; "main...HEAD"];
       LogInfo no_changes ],
     Exit 1)
  /\ main (world_git_ok ("   " ++ nl)) default_args
     = ([ LogInfo getting_diff;
          RunProcess ["git"; "diff"; "main...HEAD"];
          LogInfo no_changes ],
        Exit 0).
Proof. split; reflexivity. Qed.

Lemma missing_credential_fails_first_witness :
  main world_no_key default_args
  = ([ LogError ("Error: " ++ missing_key);
       LogError setup_hint_1;
       LogError setup_hint_2 ],
     Exit 1)
  /\ invokes_process (fst (main world_no_key default_args)) = false
  /\ invokes_service (fst (main world_no_key default_args)) = false.
Proof.
  apply (missing_credential_fails_first world_no_key default_args).
  reflexivity.
Defined.


(** C2, as the specification words it, fails: a diff file that exists but
    cannot be read ends [main] with the uncaught [PermissionError], not with
    an exit code. *)
Lemma unreadable_diff_file_escapes :
  snd (main (world_file (inl permission_denied) (inr canned_review)) args_file)
  = Raise permission_denied
  /\ ~ (exists code,
          snd (main (world_file (inl permission_denied) (inr canned_review))
                 args_file)
          = Exit code).
Proof.
  split; [reflexivity|]. intros [code H]. discriminate H.
Qed.

Lemma diff_file_read_failure_witness :
  main (world_file (inl no_such_file) (inr canned_review)) args_file
  = ([ ReadFile "change.diff";
       LogError "Error: File 'change.diff' not found" ],
     Exit 1)
  /\ main (world_file (inl permission_denied) (inr canned_review)) args_file
     = ([ReadFile "change.diff"], Raise permission_denied).
Proof.
  split.
  - apply (diff_file_read_failure
             (world_file (inl no_such_file) (inr canned_review))
             args_file no_such_file); reflexivity.
  - apply (diff_file_read_failure
             (world_file (inl permission_denied) (inr canned_review))
             args_file permission_denied); reflexivity.
Defined.


(** The same two files on a full run: the review is printed and [main]
    returns. *)
Example empty_diff_file_is_reviewed :
  main (world_file (inr "") (inr canned_review)) args_file
  = (ReadFile "change.diff" :: LogInfo reviewing
     :: CallService (review_request
                       (reviewer_of (world_file (inr "") (inr canned_review)))
                       "" "")
     :: map Print (banner ++ [fstr [BOLD; "## Summary"; ENDC]; "Looks fine."]
                     ++ [closing_rule])%list,
     Ret tt).
Proof. reflexivity. Qed.


(** ** The stages of [main] *)

Section Stages.

Variable w : World.

Lemma bind_ret_l {A B} (a : A) (k : A -> M B) : bind ([], Ret a) k = k a.
Proof. unfold bind. now destruct (k a). Qed.

Lemma bind_cons {A B} (e : event) (t : list event) (r : res A) (k : A -> M B) :
  bind (e :: t, r) k = (e :: fst (bind (t, r) k), snd (bind (t, r) k)).
Proof. unfold bind. destruct r; [destruct (k a)|..]; reflexivity. Qed.

(** With the credential set, [main] is its two stages in sequence. *)
Lemma main_stages (args : Args) :
  truthy_opt (getenv w "ANTHROPIC_API_KEY") = true ->
  main w args
  = (diff_content <- diff_stage w (reviewer_of w) args ;;
     review_stage w (reviewer_of w) diff_content (context args)).
Proof.
  intros Hkey. unfold main. rewrite (init_ok w Hkey).
  cbn [try_except]. rewrite bind_ret_l. reflexivity.
Qed.

(** Without it, the stages are never entered. *)
Lemma main_no_key (args : Args) :
  truthy_opt (getenv w "ANTHROPIC_API_KEY") = false ->
  main w args
  = ([ LogError ("Error: " ++ missing_key);
       LogError setup_hint_1;
       LogError setup_hint_2 ],
     Exit 1).
Proof. intros H. unfold main. rewrite (init_fails w H). reflexivity. Qed.

(** Every way [get_git_diff] can end. *)
Lemma get_git_diff_cases (self : CodeReviewer) (tb : string) (st : bool) :
  (exists cp,
      run_process w (git_diff_cmd tb st) = inr cp /\ returncode cp = 0%Z
      /\ get_git_diff w self tb st
         = ([RunProcess (git_diff_cmd tb st)], Ret (Some (stdout cp))))
  \/ (exists msg,
        get_git_diff w self tb st
        = ([RunProcess (git_diff_cmd tb st); LogError msg], Ret None))
  \/ (exists e,
        run_process w (git_diff_cmd tb st) = inl e
        /\ isinstance e CalledProcessError = false
        /\ get_git_diff w self tb st
           = ([RunProcess (git_diff_cmd tb st)], Raise e)).
Proof.
  destruct (run_process w (git_diff_cmd tb st)) as [e | cp] eqn:Hrun.
  - destruct (isinstance e CalledProcessError) eqn:He.
    + right; left. eexists.
      unfold get_git_diff, subprocess_run. cbn [emit bind lift].
      rewrite Hrun. cbn [lift raise bind try_except select_handler app].
      rewrite He. reflexivity.
    + right; right. exists e. split; [reflexivity|]. split; [exact He|].
      unfold get_git_diff, subprocess_run. cbn [emit bind lift].
      rewrite Hrun. cbn [lift raise bind try_except select_handler app].
      rewrite He. reflexivity.
  - destruct (Z.eq_dec (returncode cp) 0) as [Hrc | Hrc].
    + left. exists cp. split; [reflexivity|]. split; [exact Hrc|].
      exact (get_git_diff_ok w self tb st cp Hrun Hrc).
    + right; left. eexists. exact (get_git_diff_failed w self tb st cp Hrun Hrc).
Qed.

(** Every way the review stage can end: one call of the service, at most one
    logged error, then either the rendering of a non-empty review or the
    failure message and exit code 1. *)
Lemma review_stage_cases (self : CodeReviewer) (d c : string) :
  (exists text,
      text <> ""
      /\ review_code w self d c
         = ([CallService (review_request self d c)], Ret (Some text))
      /\ review_stage w self d c
         = (LogInfo reviewing :: CallService (review_request self d c)
            :: map Print (rendering text),
            Ret tt))
  \/ (exists logs v,
        truthy_opt v = false
        /\ (logs = [] \/ exists msg, logs = [LogError msg])
        /\ review_code w self d c
           = (CallService (review_request self d c) :: logs, Ret v)
        /\ review_stage w self d c
           = (LogInfo reviewing :: CallService (review_request self d c)
              :: (logs ++ [LogError review_failed])%list,
              Exit 1)).
Proof.
  destruct (review_code_shape w self d c) as (logs & v & Hrev & Hlogs & Hiff).
  destruct (truthy_opt v) eqn:Hv.
  - left. destruct v as [text|]; [|discriminate]. exists text.
    assert (logs = []) as -> by (apply Hiff; eauto).
    split. { intros ->. discriminate. }
    split; [exact Hrev|].
    unfold review_stage. rewrite Hrev.
    cbn [logger_info emit bind app]. rewrite Hv. cbn [the].
    rewrite format_review_trace. reflexivity.
  - right. exists logs, v. split; [exact Hv|]. split; [exact Hlogs|].
    split; [exact Hrev|].
    unfold review_stage. rewrite Hrev.
    cbn [logger_info emit bind app]. rewrite Hv. reflexivity.
Qed.

Lemma count_app (f : event -> bool) (t t' : list event) :
  count f (t ++ t')%list = count f t + count f t'.
Proof. unfold count. now rewrite filter_app, List.length_app. Qed.

Lemma printed_app (t t' : list event) :
  printed (t ++ t')%list = (printed t ++ printed t')%list.
Proof.
  induction t as [|e t IH]; [reflexivity|].
  destruct e; cbn [printed List.app]; now rewrite ?IH.
Qed.

Lemma count_map_print (f : event -> bool) (ls : list string) :
  (forall l, f (Print l) = false) -> count f (map Print ls) = 0.
Proof.
  intros Hf. unfold count.
  induction ls as [|l ls IH]; [reflexivity|].
  cbn [map filter]. now rewrite Hf.
Qed.

Lemma request_ok_map_print (ls : list string) :
  forallb request_ok (map Print ls) = true.
Proof. induction ls as [|l ls IH]; [reflexivity | exact IH]. Qed.

Lemma no_service_call (t : list event) :
  count is_service_call t = 0 ->
  invokes_service t = false /\ forallb request_ok t = true.
Proof.
  unfold count, invokes_service.
  induction t as [|e t IH]; [now split|].
  cbn [existsb forallb filter].
  destruct e; cbn; try discriminate; exact IH.
Qed.

(** Every way the diff stage can end: it touches exactly one source (the
    file or [git]), prints nothing and calls no service. *)
Lemma diff_stage_summary (self : CodeReviewer) (args : Args) :
  exists t r,
    diff_stage w self args = (t, r)
    /\ count is_service_call t = 0
    /\ count is_process_call t + count is_read_file t = 1
    /\ printed t = []
    /\ ((exists d, r = Ret d)
        \/ r = Exit 1
        \/ (r = Exit 0 /\ truthy_opt (diff_file args) = false
            /\ invokes_process t = true)
        \/ (exists e, r = Raise e /\ escapes w args e)).
Proof.
  unfold diff_stage, escapes.
  destruct (truthy_opt (diff_file args)) eqn:Hfile.
  - unfold open_and_read. cbn [emit bind].
    destruct (open_read w (the (diff_file args))) as [e | contents] eqn:Hread;
      cbn [lift raise ret try_except select_handler app].
    + destruct (isinstance e FileNotFoundError) eqn:He.
      * eexists _, _. split; [reflexivity|]. cbn. repeat split; auto.
      * eexists _, _. split; [reflexivity|]. cbn. repeat split; auto.
        do 3 right. exists e. split; [reflexivity|]. left. auto.
    + eexists _, _. split; [reflexivity|]. cbn. repeat split; eauto.
  - destruct (get_git_diff_cases self (target_branch args) (staged args))
      as [(cp & Hrun & Hrc & ->) | [(msg & ->) | (e & Hrun & He & ->)]];
      cbn [logger_info emit bind app truthy_opt negb the].
    + destruct (truthy (stdout cp)); cbn [negb].
      * destruct (truthy (strip (stdout cp))); cbn [negb];
          eexists _, _; (split; [reflexivity|]); cbn; repeat split; eauto.
        right; right; left. auto.
      * eexists _, _. split; [reflexivity|]. cbn. repeat split; auto.
    + eexists _, _. split; [reflexivity|]. cbn. repeat split; auto.
    + eexists _, _. split; [reflexivity|]. cbn. repeat split; auto.
      do 3 right. exists e. split; [reflexivity|]. right. auto.
Qed.

(** Every way [main] can end. *)
Lemma main_summary (args : Args) :
  exists t r,
    main w args = (t, r)
    /\ count is_service_call t <= 1
    /\ count is_process_call t + count is_read_file t <= 1
    /\ forallb request_ok t = true
    /\ ((r = Ret tt
         /\ count is_service_call t = 1
         /\ exists text, text <> "" /\ printed t = rendering text)
        \/ (printed t = []
            /\ (r = Exit 1
                \/ (r = Exit 0 /\ truthy_opt (diff_file args) = false
                    /\ invokes_process t = true /\ invokes_service t = false)
                \/ (exists e, r = Raise e /\ escapes w args e
                              /\ invokes_service t = false)))).
Proof.
  destruct (truthy_opt (getenv w "ANTHROPIC_API_KEY")) eqn:Hkey.
  2:{ rewrite (main_no_key args Hkey). eexists _, _. split; [reflexivity|].
      cbn. repeat split; auto. }
  rewrite (main_stages args Hkey).
  destruct (diff_stage_summary (reviewer_of w) args)
    as (t & r & -> & Hsvc & Hsrc & Hpr & Hr).
  pose proof (no_service_call t Hsvc) as [Hno Hok].
  destruct Hr as [[d ->] | [-> | [(-> & Hfile & Hproc) | (e & -> & Hesc)]]].
  - cbn [bind].
    destruct (review_stage_cases (reviewer_of w) d (context args))
      as [(text & Htext & _ & ->) | (logs & v & Hv & Hlogs & _ & ->)].
    + eexists _, _. split; [reflexivity|].
      rewrite !count_app, forallb_app, printed_app, Hsvc, Hpr, Hok.
      cbn [count filter is_service_call is_process_call is_read_file
           List.length forallb request_ok printed List.app andb].
      fold (count is_service_call (map Print (rendering text))).
      fold (count is_process_call (map Print (rendering text))).
      fold (count is_read_file (map Print (rendering text))).
      rewrite !count_map_print by reflexivity.
      rewrite request_ok_map_print, printed_map_print.
      repeat split; try lia; try reflexivity.
      left. repeat split; eauto.
    + eexists _, _. split; [reflexivity|].
      rewrite !count_app, forallb_app, printed_app, Hsvc, Hpr, Hok.
      destruct Hlogs as [-> | [msg ->]]; cbn; repeat split; try lia; auto.
  - eexists _, _. split; [reflexivity|]. rewrite Hsvc, Hpr.
    repeat split; try lia; auto.
  - eexists _, _. split; [reflexivity|]. rewrite Hsvc, Hpr.
    repeat split; try lia; auto. right. split; [reflexivity|].
    right; left. auto.
  - eexists _, _. split; [reflexivity|]. rewrite Hsvc, Hpr.
    repeat split; try lia; auto. right. split; [reflexivity|].
    right; right. eauto.
Qed.

End Stages.


(** ** Further properties of the reviewer and of [main] *)

Section Whitespace.

Lemma whitespace_nonempty (x : string) :
  In x whitespace -> 1 <= String.length x.
Proof.
  assert (H : forallb (fun y => Nat.leb 1 (String.length y)) whitespace = true)
    by reflexivity.
  intros Hx. rewrite forallb_forall in H. apply Nat.leb_le. now apply H.
Qed.

Lemma leading_whitespace (x rest : string) :
  In x whitespace -> leading whitespace (x ++ rest) = Some x.
Proof.
  intros Hx. cbv [whitespace map List.app chr of_codes] in Hx.
  repeat (destruct Hx as [<- | Hx]; [destruct rest; reflexivity|]).
  contradiction.
Qed.

Lemma lstrip_with_all (ws : list string) :
  Forall (fun x => In x whitespace) ws ->
  forall fuel, List.length ws <= fuel ->
  lstrip_with whitespace fuel (fstr ws) = "".
Proof.
  induction 1 as [|x ws Hx _ IH]; intros fuel Hfuel.
  - destruct fuel; reflexivity.
  - destruct fuel as [|fuel]; [cbn in Hfuel; lia|].
    cbn [fstr lstrip_with]. rewrite (leading_whitespace _ _ Hx), drop_app.
    apply IH. cbn in Hfuel. lia.
Qed.

Lemma fstr_length_ge (ws : list string) :
  Forall (fun x => In x whitespace) ws ->
  List.length ws <= String.length (fstr ws).
Proof.
  induction 1 as [|x ws Hx _ IH]; [cbn; lia|].
  cbn [fstr List.length]. rewrite length_app.
  pose proof (whitespace_nonempty _ Hx). lia.
Qed.

(** A text made of whitespace characters only strips to nothing. *)
Lemma strip_all_whitespace (ws : list string) :
  Forall (fun x => In x whitespace) ws -> strip (fstr ws) = "".
Proof.
  intros H. unfold strip, lstrip.
  now rewrite (lstrip_with_all ws H _ (fstr_length_ge ws H)).
Qed.

End Whitespace.

Section Reviewer.

Variable w : World.

(** X1: an explicit non-empty key is used whatever the environment holds; an
    explicit empty key counts as none and the environment decides. *)
Theorem explicit_key_wins (k : string) :
  (k <> "" ->
   CodeReviewer_init w (Some k)
   = ([], Ret {| api_key := Some k; client := mkClient k;
                 model := "claude-haiku-4-5" |}))
  /\ CodeReviewer_init w (Some "") = CodeReviewer_init w None.
Proof.
  split; [|reflexivity].
  intros Hk. apply String.eqb_neq in Hk.
  unfold CodeReviewer_init, py_or. cbn [truthy_opt]. unfold truthy.
  rewrite Hk. cbn [negb truthy_opt]. unfold truthy. rewrite Hk. reflexivity.
Qed.

(** X2: a reviewer that was constructed holds a non-empty key, the same one
    in its client, and the fixed model name; constructing it records no
    event.  The key is the explicit one, or the environment's when the
    explicit one is missing or empty. *)
Theorem constructed_reviewer_has_key (k : option string) (t : list event)
    (r : CodeReviewer) :
  CodeReviewer_init w k = (t, Ret r) ->
  t = []
  /\ model r = "claude-haiku-4-5"
  /\ exists s,
       s <> "" /\ api_key r = Some s /\ client_api_key (client r) = s
       /\ (k = Some s
           \/ (truthy_opt k = false /\ getenv w "ANTHROPIC_API_KEY" = Some s)).
Proof.
  unfold CodeReviewer_init, py_or.
  destruct (truthy_opt k) eqn:Hk.
  - rewrite Hk. cbn [negb]. intros [= <- <-]. cbn.
    destruct k as [s|]; [|discriminate]. cbn in Hk.
    split; [reflexivity|]. split; [reflexivity|]. exists s.
    repeat split; auto. intros ->. discriminate.
  - destruct (truthy_opt (getenv w "ANTHROPIC_API_KEY")) eqn:He;
      cbn [negb]; [|discriminate].
    intros [= <- <-]. cbn.
    destruct (getenv w "ANTHROPIC_API_KEY") as [s|]; [|discriminate].
    cbn in He. split; [reflexivity|]. split; [reflexivity|]. exists s.
    repeat split; auto. intros ->. discriminate.
Qed.

Lemma get_git_diff_launch_failure (self : CodeReviewer) (tb : string)
    (st : bool) (e : exn) :
  run_process w (git_diff_cmd tb st) = inl e ->
  isinstance e CalledProcessError = false ->
  get_git_diff w self tb st = ([RunProcess (git_diff_cmd tb st)], Raise e).
Proof.
  intros Hrun He. unfold get_git_diff, subprocess_run. cbn [emit bind lift].
  rewrite Hrun. cbn [lift raise bind try_except select_handler app].
  rewrite He. reflexivity.
Qed.

(** X3: whatever happens, [get_git_diff] starts exactly one process: the
    staged diff, or the three-dot diff of the target branch against HEAD.
    It logs at most the tool's error, calls no service and never exits the
    program. *)
Theorem get_git_diff_runs_once (self : CodeReviewer) (tb : string) (st : bool) :
  exists logs r,
    get_git_diff w self tb st
    = (RunProcess (if st then ["git"; "diff"; "--cached"]
                   else ["git"; "diff"; tb ++ "...HEAD"]) :: logs, r)
    /\ (logs = [] \/ exists msg, logs = [LogError msg])
    /\ (forall code, r <> Exit code).
Proof.
  assert (Hcmd : git_diff_cmd tb st
                 = if st then ["git"; "diff"; "--cached"]
                   else ["git"; "diff"; tb ++ "...HEAD"]).
  { destruct st; reflexivity. }
  rewrite <- Hcmd.
  destruct (get_git_diff_cases w self tb st)
    as [(cp & _ & _ & ->) | [(msg & ->) | (e & _ & _ & ->)]];
    eexists _, _; (split; [reflexivity|]); split; eauto; discriminate.
Qed.

Lemma strip_nonblank_nonempty (s : string) : strip s <> "" -> truthy s = true.
Proof. destruct s; [intros H; now elim H | reflexivity]. Qed.

Lemma diff_stage_obtained (self : CodeReviewer) (args : Args) (d : string) :
  diff_obtained w args d ->
  diff_stage w self args = (source_events args, Ret d).
Proof.
  unfold diff_stage, source_events.
  intros [(Hfile & Hread) | (Hfile & cp & Hrun & Hrc & <- & Hstrip)];
    rewrite Hfile.
  - unfold open_and_read. cbn [emit bind]. now rewrite Hread.
  - rewrite (get_git_diff_ok w self _ _ cp Hrun Hrc).
    cbn [logger_info emit bind app truthy_opt the].
    rewrite (strip_nonblank_nonempty _ Hstrip).
    apply String.eqb_neq in Hstrip. unfold truthy at 1. rewrite Hstrip.
    reflexivity.
Qed.

(** X4: when [git] cannot be started (any failure other than a non-zero
    exit), nothing catches the exception: it leaves [get_git_diff] and then
    [main], after the progress line and the attempt to run the command. *)
Theorem git_launch_failure_escapes (args : Args) (e : exn) :
  truthy_opt (getenv w "ANTHROPIC_API_KEY") = true ->
  truthy_opt (diff_file args) = false ->
  run_process w (git_diff_cmd (target_branch args) (staged args)) = inl e ->
  isinstance e CalledProcessError = false ->
  main w args
  = ([ LogInfo getting_diff;
       RunProcess (git_diff_cmd (target_branch args) (staged args)) ],
     Raise e).
Proof.
  intros Hkey Hfile Hrun He. rewrite (main_stages w args Hkey).
  unfold diff_stage. rewrite Hfile.
  rewrite (get_git_diff_launch_failure (reviewer_of w) _ _ e Hrun He).
  reflexivity.
Qed.


(** X6: when [git diff] exits zero with a non-empty output made of
    whitespace characters only, [main] logs that there is nothing to review
    and exits with code 0, without calling the service. *)
Theorem whitespace_only_diff_exits_clean (args : Args) (cp : CompletedProcess)
    (ws : list string) :
  truthy_opt (getenv w "ANTHROPIC_API_KEY") = true ->
  truthy_opt (diff_file args) = false ->
  run_process w (git_diff_cmd (target_branch args) (staged args)) = inr cp ->
  returncode cp = 0%Z ->
  ws <> [] ->
  Forall (fun x => In x whitespace) ws ->
  stdout cp = fstr ws ->
  main w args
  = ([ LogInfo getting_diff;
       RunProcess (git_diff_cmd (target_branch args) (staged args));
       LogInfo no_changes ],
     Exit 0).
Proof.
  intros Hkey Hfile Hrun Hrc Hne Hws Hout.
  apply (main_git_blank w args cp Hkey Hfile Hrun Hrc).
  - rewrite Hout. destruct Hws as [|x ws Hx _]; [now elim Hne|].
    pose proof (whitespace_nonempty x Hx) as Hlen.
    destruct x; [cbn in Hlen; lia | discriminate].
  - rewrite Hout. now apply strip_all_whitespace.
Qed.

End Reviewer.

Section Outcomes.

Variable w : World.

Lemma truthy_true (s : string) : truthy s = true <-> s <> "".
Proof.
  unfold truthy. destruct (String.eqb_spec s ""); cbn; split; congruence.
Qed.

Lemma truthy_false (s : string) : truthy s = false <-> s = "".
Proof.
  unfold truthy. destruct (String.eqb_spec s ""); cbn; split; congruence.
Qed.

(** The three ways the diff stage can end: with the diff, with the clean
    exit on a blank [git] output, or with exit code 1 or an exception. *)
Lemma diff_stage_cases (self : CodeReviewer) (args : Args) :
  (exists d,
      diff_obtained w args d
      /\ diff_stage w self args = (source_events args, Ret d))
  \/ (blank_git w args
      /\ exists t, diff_stage w self args = (t, Exit 0) /\ printed t = [])
  \/ (exists t r,
        diff_stage w self args = (t, r) /\ printed t = []
        /\ (r = Exit 1 \/ exists e, r = Raise e)).
Proof.
  unfold diff_stage, diff_obtained, blank_git, source_events.
  destruct (truthy_opt (diff_file args)) eqn:Hfile.
  - unfold open_and_read. cbn [emit bind].
    destruct (open_read w (the (diff_file args))) as [e | contents] eqn:Hread;
      cbn [lift raise ret try_except select_handler app].
    + right; right.
      destruct (isinstance e FileNotFoundError);
        eexists _, _; (split; [reflexivity|]); split; eauto.
    + left. exists contents. split; [left; auto | reflexivity].
  - destruct (get_git_diff_cases w self (target_branch args) (staged args))
      as [(cp & Hrun & Hrc & ->) | [(msg & ->) | (e & Hrun & He & ->)]];
      cbn [logger_info emit bind app truthy_opt negb the].
    + destruct (truthy (stdout cp)) eqn:Hout; cbn [negb].
      * destruct (truthy (strip (stdout cp))) eqn:Hstrip; cbn [negb].
        -- left. exists (stdout cp). split; [|reflexivity].
           right. split; [reflexivity|]. exists cp.
           repeat split; auto. now apply truthy_true.
        -- right; left. split.
           ++ split; [reflexivity|]. exists cp. repeat split; auto.
              ** now apply truthy_true.
              ** now apply truthy_false.
           ++ eexists. split; reflexivity.
      * right; right. eexists _, _. split; [reflexivity|]. split; auto.
    + right; right. eexists _, _. split; [reflexivity|]. split; auto.
    + right; right. eexists _, _. split; [reflexivity|]. split; eauto.
Qed.

Lemma review_code_some_inv (self : CodeReviewer) (d c text : string)
    (t : list event) :
  review_code w self d c = (t, Ret (Some text)) ->
  exists rest,
    messages_create w (review_request self d c)
    = inr (mkMessage (TextBlock text :: rest)).
Proof.
  destruct (messages_create w (review_request self d c))
    as [e | [[|[t'|] rest]]] eqn:Hsvc.
  - destruct (isinstance e APIError) eqn:He.
    + rewrite (review_code_api_error w _ _ _ _ Hsvc He). discriminate.
    + rewrite (review_code_other_error w _ _ _ _ Hsvc He). discriminate.
  - destruct (review_code_malformed w _ _ _ _ Hsvc) as (e & _ & ->);
      [now left | discriminate].
  - rewrite (review_code_text w _ _ _ _ _ Hsvc). intros [= _ ->]. eauto.
  - destruct (review_code_malformed w _ _ _ _ Hsvc) as (e & _ & ->);
      [right; now exists rest | discriminate].
Qed.

(** X7: once the options are parsed, [main] prints nothing unless the key is
    set, the diff was obtained and the service answered with a non-empty
    text: [format_review] is the only place that prints, and it is reached
    on that path only.  On every other path (no key, diff file missing or
    unreadable, [git] failing, empty or blank [git] output, failed call,
    empty review) standard output stays empty. *)
Theorem prints_only_a_review (args : Args) :
  printed (fst (main w args)) <> [] ->
  truthy_opt (getenv w "ANTHROPIC_API_KEY") = true
  /\ exists d text, review_obtained w args d text.
Proof.
  intros Hpr.
  destruct (truthy_opt (getenv w "ANTHROPIC_API_KEY")) eqn:Hkey.
  2:{ rewrite (main_no_key w args Hkey) in Hpr. now elim Hpr. }
  split; [reflexivity|].
  rewrite (main_stages w args Hkey) in Hpr.
  destruct (diff_stage_cases (reviewer_of w) args)
    as [(d & Hd & Hst) | [(_ & t & Hst & Ht) | (t & r & Hst & Ht & Hr)]];
    rewrite Hst in Hpr.
  - cbn [bind] in Hpr.
    destruct (review_stage_cases w (reviewer_of w) d (context args))
      as [(text & Htext & Hrev & _) | (logs & v & _ & Hlogs & _ & Hrs)].
    + exists d, text. split; [exact Hd|]. split; [exact Htext|].
      exact (review_code_some_inv _ _ _ _ _ Hrev).
    + rewrite Hrs in Hpr. cbn [fst] in Hpr. exfalso. apply Hpr.
      rewrite printed_app. unfold source_events.
      destruct (truthy_opt (diff_file args));
        destruct Hlogs as [-> | [msg ->]]; reflexivity.
  - cbn [bind fst] in Hpr. now elim Hpr.
  - exfalso. apply Hpr.
    destruct Hr as [-> | [e ->]]; cbn [bind fst]; exact Ht.
Qed.

(** X8: once the options are parsed, [main] itself calls [sys.exit] with
    code 0 or 1 only, and with code 0 exactly when the key is set, no diff
    file is given and [git diff] exited zero with a non-empty output that
    [strip()] empties. *)
Theorem main_exit_codes (args : Args) :
  (forall code, snd (main w args) = Exit code -> code = 0%Z \/ code = 1%Z)
  /\ (snd (main w args) = Exit 0
      <-> truthy_opt (getenv w "ANTHROPIC_API_KEY") = true /\ blank_git w args).
Proof.
  assert (Hall : forall code,
             snd (main w args) = Exit code ->
             code = 1%Z
             \/ (code = 0%Z
                 /\ truthy_opt (getenv w "ANTHROPIC_API_KEY") = true
                 /\ blank_git w args)).
  { intros code.
    destruct (truthy_opt (getenv w "ANTHROPIC_API_KEY")) eqn:Hkey.
    2:{ rewrite (main_no_key w args Hkey). cbn [snd]. intros [= <-]. now left. }
    rewrite (main_stages w args Hkey).
    destruct (diff_stage_cases (reviewer_of w) args)
      as [(d & Hd & ->) | [(Hb & t & -> & _) | (t & r & -> & _ & Hr)]].
    - cbn [bind].
      destruct (review_stage_cases w (reviewer_of w) d (context args))
        as [(text & _ & _ & ->) | (logs & v & _ & _ & _ & ->)];
        cbn [snd]; [discriminate | intros [= <-]; now left].
    - cbn [bind snd]. intros [= <-]. right. auto.
    - destruct Hr as [-> | [e ->]]; cbn [bind snd];
        [intros [= <-]; now left | discriminate]. }
  split.
  - intros code H. destruct (Hall code H) as [-> | (-> & _)]; auto.
  - split.
    + intros H. destruct (Hall 0%Z H) as [? | (_ & Hk & Hb)];
        [discriminate | auto].
    + intros (Hkey & Hfile & cp & Hrun & Hrc & Hout & Hstrip).
      now rewrite (main_git_blank w args cp Hkey Hfile Hrun Hrc Hout Hstrip).
Qed.

(** X9: on every run [main] calls the service at most once and uses at most
    one source of the diff (it never both reads a file and runs a process);
    every request it sends names the fixed model, a ceiling of 4000 tokens,
    the fixed system prompt and a single message of role "user". *)
Theorem main_trace_bounds (args : Args) :
  count is_service_call (fst (main w args)) <= 1
  /\ count is_process_call (fst (main w args))
     + count is_read_file (fst (main w args)) <= 1
  /\ forallb request_ok (fst (main w args)) = true.
Proof.
  destruct (main_summary w args) as (t & r & -> & H1 & H2 & H3 & _).
  cbn [fst]. auto.
Qed.

Lemma main_obtained (args : Args) (d : string) :
  truthy_opt (getenv w "ANTHROPIC_API_KEY") = true ->
  diff_obtained w args d ->
  main w args
  = ((source_events args
      ++ fst (review_stage w (reviewer_of w) d (context args)))%list,
     snd (review_stage w (reviewer_of w) d (context args))).
Proof.
  intros Hkey Hd. rewrite (main_stages w args Hkey).
  rewrite (diff_stage_obtained w (reviewer_of w) args d Hd).
  cbn [bind].
  now destruct (review_stage w (reviewer_of w) d (context args)).
Qed.

(** X10: a review whose text is empty counts as a failed call: once the diff
    is obtained and the service answers with an empty first text block,
    [main] logs the failure message, prints nothing and exits with code 1. *)
Theorem empty_review_is_failure (args : Args) (d : string)
    (rest : list ContentBlock) :
  truthy_opt (getenv w "ANTHROPIC_API_KEY") = true ->
  diff_obtained w args d ->
  messages_create w (review_request (reviewer_of w) d (context args))
  = inr (mkMessage (TextBlock "" :: rest)) ->
  main w args
  = ((source_events args
      ++ [ LogInfo reviewing;
           CallService (review_request (reviewer_of w) d (context args));
           LogError review_failed ])%list,
     Exit 1).
Proof.
  intros Hkey Hd Hsvc. rewrite (main_obtained args d Hkey Hd).
  unfold review_stage.
  rewrite (review_code_text w _ _ _ _ _ Hsvc). reflexivity.
Qed.

(** X11: once the diff is obtained and the service answers with a non-empty
    first text block, [main] prints the banner, every line of that text in
    its style and the closing rule, logs no error and returns. *)
Theorem review_is_rendered (args : Args) (d text : string)
    (rest : list ContentBlock) :
  truthy_opt (getenv w "ANTHROPIC_API_KEY") = true ->
  diff_obtained w args d ->
  messages_create w (review_request (reviewer_of w) d (context args))
  = inr (mkMessage (TextBlock text :: rest)) ->
  text <> "" ->
  main w args
  = ((source_events args
      ++ LogInfo reviewing
         :: CallService (review_request (reviewer_of w) d (context args))
         :: map Print (rendering text))%list,
     Ret tt).
Proof.
  intros Hkey Hd Hsvc Htext. rewrite (main_obtained args d Hkey Hd).
  unfold review_stage.
  rewrite (review_code_text w _ _ _ _ _ Hsvc).
  cbn [logger_info emit bind app truthy_opt the].
  apply String.eqb_neq in Htext. unfold truthy. rewrite Htext. cbn [negb].
  rewrite format_review_trace. reflexivity.
Qed.

(** X12: once the diff is obtained and the call of the service raises,
    [main] logs that error (as an API error for an [APIError], with its class
    name otherwise), then the failure message, prints nothing and exits with
    code 1. *)
Theorem service_failure_exits_1 (args : Args) (d : string) (e : exn) :
  truthy_opt (getenv w "ANTHROPIC_API_KEY") = true ->
  diff_obtained w args d ->
  messages_create w (review_request (reviewer_of w) d (context args)) = inl e ->
  main w args
  = ((source_events args
      ++ [ LogInfo reviewing;
           CallService (review_request (reviewer_of w) d (context args));
           LogError (if isinstance e APIError
                     then fstr ["Anthropic API Error: "; exn_str e]
                     else fstr ["Unexpected error during API call: ";
                                class_name (exn_cls e); ": "; exn_str e]);
           LogError review_failed ])%list,
     Exit 1)
  /\ printed (fst (main w args)) = [].
Proof.
  intros Hkey Hd Hsvc.
  assert (Hrev : review_code w (reviewer_of w) d (context args)
                 = ([ CallService (review_request (reviewer_of w) d (context args));
                      LogError (if isinstance e APIError
                                then fstr ["Anthropic API Error: "; exn_str e]
                                else fstr ["Unexpected error during API call: ";
                                           class_name (exn_cls e); ": ";
                                           exn_str e]) ],
                    Ret None)).
  { destruct (isinstance e APIError) eqn:He.
    - exact (review_code_api_error w _ _ _ _ Hsvc He).
    - exact (review_code_other_error w _ _ _ _ Hsvc He). }
  assert (Hm : main w args
               = ((source_events args
                   ++ [ LogInfo reviewing;
                        CallService (review_request (reviewer_of w) d (context args));
                        LogError (if isinstance e APIError
                                  then fstr ["Anthropic API Error: "; exn_str e]
                                  else fstr ["Unexpected error during API call: ";
                                             class_name (exn_cls e); ": ";
                                             exn_str e]);
                        LogError review_failed ])%list, Exit 1)).
  { rewrite (main_obtained args d Hkey Hd). unfold review_stage.
    rewrite Hrev. reflexivity. }
  split; [exact Hm|]. rewrite Hm. cbn [fst]. rewrite printed_app.
  unfold source_events. now destruct (truthy_opt (diff_file args)).
Qed.

End Outcomes.

Section Rendering.

Lemma no_newline_app (a b : string) :
  no_newline (a ++ b) = no_newline a && no_newline b.
Proof.
  induction a as [|x a IH]; [reflexivity|].
  cbn [append no_newline]. now rewrite IH, andb_assoc.
Qed.

Lemma format_line_no_newline (line : string) :
  no_newline (format_line line) = no_newline line.
Proof.
  rewrite format_line_table. unfold spec_render_line, apply_style.
  rewrite !no_newline_app.
  destruct (spec_classify line); cbn; now rewrite ?andb_true_r.
Qed.

(** X13: styling never adds a line break: what is printed for a line holds a
    newline only if the line does.  So each entry [format_review] prints for
    the review is a single line, and there is one entry more than the text
    has newlines. *)
Theorem format_review_one_line_each (self : CodeReviewer) (text : string) :
  (forall line, no_newline (format_line line) = no_newline line)
  /\ exists body,
       printed (fst (format_review self text))
       = (banner ++ body ++ [closing_rule])%list
       /\ forallb no_newline body = true
       /\ List.length body = S (count_nl text).
Proof.
  split; [exact format_line_no_newline|].
  exists (map format_line (split_nl text)).
  rewrite format_review_trace. cbn [fst].
  split; [apply printed_map_print|].
  split.
  - pose proof (split_no_newline text) as H.
    induction (split_nl text) as [|l ls IH]; [reflexivity|].
    cbn [map forallb] in *. apply andb_true_iff in H. destruct H as [Hl Hls].
    now rewrite format_line_no_newline, Hl, IH.
  - now rewrite length_map, split_length.
Qed.

Lemma app_inv_head (p a b : string) : p ++ a = p ++ b -> a = b.
Proof.
  induction p as [|x p IH]; cbn [append]; [auto|].
  intros [= H]. auto.
Qed.

Lemma app_inv_tail (a b p : string) : a ++ p = b ++ p -> a = b.
Proof.
  revert b; induction a as [|x a IH]; intros [|y b] H.
  - reflexivity.
  - apply (f_equal String.length) in H. cbn in H. rewrite length_app in H. lia.
  - apply (f_equal String.length) in H. cbn in H. rewrite length_app in H. lia.
  - cbn [append] in H. injection H as -> H. f_equal. now apply IH.
Qed.

(** X14: the user message loses nothing of its inputs: with the same context
    two different diffs give different messages, and with the same diff two
    different contexts give different messages.  The pair is not determined
    by the message, though: a context that holds a fence can stand for part
    of the diff. *)
Theorem user_prompt_keeps_inputs (d1 d2 c1 c2 : string) :
  (d1 <> d2 -> user_prompt d1 c1 <> user_prompt d2 c1)
  /\ (c1 <> c2 -> user_prompt d1 c1 <> user_prompt d1 c2)
  /\ user_prompt "z" ("x" ++ nl ++ nl ++ fence_open ++ nl ++ "y")
     = user_prompt ("y" ++ nl ++ nl ++ fence_open ++ nl ++ "z") "x".
Proof.
  split; [|split; [|reflexivity]].
  - intros Hd E. apply Hd. rewrite !user_prompt_shape in E. unfold fenced in E.
    do 3 apply app_inv_head in E. apply app_inv_tail in E.
    do 2 apply app_inv_head in E. now apply app_inv_tail in E.
  - intros Hc E. apply Hc. rewrite !user_prompt_shape in E.
    apply app_inv_head in E. now apply app_inv_tail in E.
Qed.

End Rendering.

Section Options.

Variable w : World.

(** X15: the options have a precedence.  With a non-empty diff file neither
    the staged flag nor the target branch plays any role; without one, the
    staged flag makes the target branch irrelevant. *)
Theorem option_precedence (path ctx tb tb' : string) (st st' : bool) :
  (path <> "" ->
   main w {| diff_file := Some path; target_branch := tb; staged := st;
             context := ctx |}
   = main w {| diff_file := Some path; target_branch := tb'; staged := st';
               context := ctx |})
  /\ main w {| diff_file := None; target_branch := tb; staged := true;
               context := ctx |}
     = main w {| diff_file := None; target_branch := tb'; staged := true;
                 context := ctx |}.
Proof.
  split; [|reflexivity].
  intros Hp. apply String.eqb_neq in Hp. unfold main.
  cbn [diff_file truthy_opt the context]. unfold truthy. rewrite Hp.
  reflexivity.
Qed.

End Options.

(** ** The further properties at concrete inputs *)

Lemma explicit_key_wins_witness :
  CodeReviewer_init world_no_key (Some "sk-explicit")
  = ([], Ret {| api_key := Some "sk-explicit"; client := mkClient "sk-explicit";
                model := "claude-haiku-4-5" |}).
Proof.
  apply (explicit_key_wins world_no_key "sk-explicit"). discriminate.
Defined.

Lemma constructed_reviewer_has_key_witness :
  exists s,
    s <> "" /\ api_key (reviewer_of world_git_failed) = Some s
    /\ client_api_key (client (reviewer_of world_git_failed)) = s
    /\ (None = Some s
        \/ (truthy_opt None = false
            /\ getenv world_git_failed "ANTHROPIC_API_KEY" = Some s)).
Proof.
  apply (constructed_reviewer_has_key world_git_failed None []
           (reviewer_of world_git_failed)).
  reflexivity.
Defined.

Lemma git_launch_failure_escapes_witness :
  main world_git_missing default_args
  = ([LogInfo getting_diff; RunProcess ["git"; "diff"; "main...HEAD"]],
     Raise git_not_installed).
Proof.
  apply (git_launch_failure_escapes world_git_missing default_args
           git_not_installed); reflexivity.
Defined.


Lemma whitespace_only_diff_exits_clean_witness :
  main (world_git_ok (fstr [" "; chr 9; nl])) default_args
  = ([ LogInfo getting_diff;
       RunProcess ["git"; "diff"; "main...HEAD"];
       LogInfo no_changes ],
     Exit 0).
Proof.
  apply (whitespace_only_diff_exits_clean (world_git_ok (fstr [" "; chr 9; nl]))
           default_args (mkCompleted 0 (fstr [" "; chr 9; nl]) "")
           [" "; chr 9; nl]);
    [reflexivity | reflexivity | reflexivity | reflexivity | discriminate
    | | reflexivity].
  apply Forall_cons; [|apply Forall_cons; [|apply Forall_cons; [|apply Forall_nil]]];
    unfold whitespace; apply in_or_app; left.
  - apply (in_map chr _ 32). do 9 right. now left.
  - apply (in_map chr _ 9). now left.
  - apply (in_map chr _ 10). right. now left.
Defined.

Lemma empty_review_is_failure_witness :
  main (world_file (inr "+x = 1") (inr (mkMessage [TextBlock ""]))) args_file
  = ([ ReadFile "change.diff";
       LogInfo reviewing;
       CallService (review_request
                      (reviewer_of (world_file (inr "+x = 1")
                                      (inr (mkMessage [TextBlock ""]))))
                      "+x = 1" "");
       LogError review_failed ],
     Exit 1).
Proof.
  apply (empty_review_is_failure
           (world_file (inr "+x = 1") (inr (mkMessage [TextBlock ""])))
           args_file "+x = 1" []);
    [reflexivity | left; split; reflexivity | reflexivity].
Defined.

Lemma review_is_rendered_witness :
  main (world_file (inr "+x = 1") (inr canned_review)) args_file
  = (ReadFile "change.diff"
     :: LogInfo reviewing
     :: CallService (review_request
                       (reviewer_of (world_file (inr "+x = 1") (inr canned_review)))
                       "+x = 1" "")
     :: map Print (rendering ("## Summary" ++ nl ++ "Looks fine.")),
     Ret tt).
Proof.
  apply (review_is_rendered
           (world_file (inr "+x = 1") (inr canned_review))
           args_file "+x = 1" ("## Summary" ++ nl ++ "Looks fine.") []);
    [reflexivity | left; split; reflexivity | reflexivity | discriminate].
Defined.

Lemma service_failure_exits_1_witness :
  main (world_file (inr "+x = 1")
          (inl (mkExn APITimeoutError "Request timed out." None))) args_file
  = ([ ReadFile "change.diff";
       LogInfo reviewing;
       CallService (review_request (reviewer_of world_git_failed) "+x = 1" "");
       LogError "Anthropic API Error: Request timed out.";
       LogError review_failed ],
     Exit 1)
  /\ main (world_file (inr "+x = 1")
             (inl (mkExn OSError "[Errno 104] Connection reset by peer" None)))
       args_file
     = ([ ReadFile "change.diff";
          LogInfo reviewing;
          CallService (review_request (reviewer_of world_git_failed) "+x = 1" "");
          LogError "Unexpected error during API call: OSError: [Errno 104] Connection reset by peer";
          LogError review_failed ],
        Exit 1).
Proof.
  split.
  - apply (service_failure_exits_1
             (world_file (inr "+x = 1")
                (inl (mkExn APITimeoutError "Request timed out." None)))
             args_file "+x = 1"
             (mkExn APITimeoutError "Request timed out." None));
      [reflexivity | left; split; reflexivity | reflexivity].
  - apply (service_failure_exits_1
             (world_file (inr "+x = 1")
                (inl (mkExn OSError "[Errno 104] Connection reset by peer" None)))
             args_file "+x = 1"
             (mkExn OSError "[Errno 104] Connection reset by peer" None));
      [reflexivity | left; split; reflexivity | reflexivity].
Defined.

Lemma user_prompt_keeps_inputs_witness :
  user_prompt "+a" "ctx" <> user_prompt "+b" "ctx"
  /\ user_prompt "+a" "ctx" <> user_prompt "+a" "other".
Proof.
  split.
  - apply (user_prompt_keeps_inputs "+a" "+b" "ctx" "other"). discriminate.
  - apply (user_prompt_keeps_inputs "+a" "+b" "ctx" "other"). discriminate.
Defined.

Lemma option_precedence_witness :
  main (world_file (inr "+x = 1") (inr canned_review))
    {| diff_file := Some "change.diff"; target_branch := "main";
       staged := false; context := "" |}
  = main (world_file (inr "+x = 1") (inr canned_review))
      {| diff_file := Some "change.diff"; target_branch := "develop";
         staged := true; context := "" |}.
Proof.
  apply (option_precedence (world_file (inr "+x = 1") (inr canned_review))
           "change.diff" "" "main" "develop" false true).
  discriminate.
Defined.

Lemma prints_only_a_review_witness :
  exists d text,
    review_obtained (world_file (inr "+x = 1") (inr canned_review)) args_file
      d text.
Proof.
  apply (prints_only_a_review (world_file (inr "+x = 1") (inr canned_review))
           args_file).
  vm_compute. discriminate.
Defined.

Lemma main_exit_codes_witness :
  snd (main (world_git_ok ("   " ++ nl)) default_args) = Exit 0.
Proof.
  apply (main_exit_codes (world_git_ok ("   " ++ nl)) default_args).
  split; [reflexivity|].
  split; [reflexivity|].
  exists (mkCompleted 0 ("   " ++ nl) "").
  split; [reflexivity|]. split; [reflexivity|].
  split; [discriminate | reflexivity].
Defined.
